(** * windsearch: [find_timezones.py]

    A shallow embedding of the timezone collector
    ([find_unique_timezones] and the top-level program of
    [src/find_timezones.py]) together with the properties of its
    specification.

    The Python run time the program relies on is modelled as follows.
    - Values are the objects [json.load] builds: [None], booleans,
      integers, text, lists and dictionaries.  JSON numbers with a
      fraction or an exponent (Python [float]) are floating point and are
      left out of the value type; the properties below are about inputs
      whose numbers are integers.  The float [NaN], with which the
      result depends on the iteration order of the set, is embedded
      apart ([WithNaN]).
    - Text is a [string] of bytes (the UTF-8 form); Python orders [str]
      by code point, which is the bytewise order of the UTF-8 form.
    - Exceptions are an error monad [result]; standard output is the text
      written, a string threaded through the [io] monad.  Which texts the
      output stream can encode depends on its encoding and is a parameter
      of a run ([stream]); every encoding takes ASCII text.
    - A Python [set] is the list of its members in insertion order, no two
      of them equal under [==]; the order in which a set is iterated
      depends on hashing and is a parameter of a run ([hash_order]).
    - [json.load] itself is a parameter ([json_loads]) of the development. *)

From stdpp Require Import gmap strings list sorting pretty.
From Stdlib Require Import ZArith.

(** ** Python exceptions and the error monad *)

Inductive exn : Type :=
| FileNotFoundError
| JSONDecodeError
| TypeError
| AttributeError
| UnicodeEncodeError.

Inductive result (A : Type) : Type :=
| Ok (a : A)
| Raise (e : exn).
Arguments Ok {A} a.
Arguments Raise {A} e.

Definition bind {A B : Type} (r : result A) (k : A → result B) : result B :=
  match r with
  | Ok a => k a
  | Raise e => Raise e
  end.

Notation "x <- r ;; k" := (bind r (fun x => k))
  (at level 100, r at next level, right associativity).

(** The [for x in items: body] loop over an accumulator: the first
    exception leaves the loop. *)
Fixpoint for_each {S A : Type} (body : S → A → result S) (s : S) (items : list A)
  : result S :=
  match items with
  | [] => Ok s
  | x :: items' => s' <- body s x ;; for_each body s' items'
  end.

(** ** Values *)

(** The hashable scalars of JSON. *)
Inductive atom : Type :=
| ANone
| ABool (b : bool)
| AInt (n : Z)
| AStr (s : string).

Global Instance atom_eq_dec : EqDecision atom.
Proof. solve_decision. Defined.

Local Unset Elimination Schemes.
Inductive value : Type :=
| Atom (a : atom)
| Array (items : list value)
| Object (fields : gmap string value).
Local Set Elimination Schemes.

(** The integer a number-like atom stands for ([bool] is a subclass of
    [int]: [True == 1], [False == 0]). *)
Definition as_int (a : atom) : option Z :=
  match a with
  | ABool b => Some (if b then 1%Z else 0%Z)
  | AInt n => Some n
  | _ => None
  end.

(** [a == b]. *)
Definition py_eq (a b : atom) : bool :=
  match a, b with
  | ANone, ANone => true
  | AStr s, AStr t => String.eqb s t
  | _, _ =>
      match as_int a, as_int b with
      | Some m, Some n => Z.eqb m n
      | _, _ => false
      end
  end.

(** [a < b]: defined between two numbers and between two texts, a
    [TypeError] otherwise. *)
Definition py_lt (a b : atom) : result bool :=
  match a, b with
  | AStr s, AStr t => Ok (String.ltb s t)
  | _, _ =>
      match as_int a, as_int b with
      | Some m, Some n => Ok (Z.ltb m n)
      | _, _ => Raise TypeError
      end
  end.

(** [str(a)], what [print] writes. *)
Definition py_str (a : atom) : string :=
  match a with
  | ANone => "None"
  | ABool true => "True"
  | ABool false => "False"
  | AInt n => pretty n
  | AStr s => s
  end.

(** [for x in v]: a list yields its items, a dictionary its keys, a text
    its characters; the other values are not iterable ([TypeError]). *)
Definition py_iter (v : value) : result (list value) :=
  match v with
  | Array items => Ok items
  | Object fields => Ok ((λ kv, Atom (AStr kv.1)) <$> map_to_list fields)
  | Atom (AStr s) => Ok ((λ c, Atom (AStr (String c ""))) <$> String.list_ascii_of_string s)
  | Atom _ => Raise TypeError
  end.

(** [v.get(key)]: only dictionaries have the method; a missing key gives
    [None]. *)
Definition py_get (v : value) (key : string) : result value :=
  match v with
  | Object fields => Ok (default (Atom ANone) (fields !! key))
  | _ => Raise AttributeError
  end.

(** [v is not None]. *)
Definition is_not_none (v : value) : bool :=
  match v with
  | Atom ANone => false
  | _ => true
  end.

(** ** Sets *)

(** [s.add(v)]: lists and dictionaries are unhashable; a member equal to
    [v] keeps its place and [v] is dropped. *)
Definition set_add (v : value) (s : list atom) : result (list atom) :=
  match v with
  | Atom a => Ok (if existsb (py_eq a) s then s else s ++ [a])
  | _ => Raise TypeError
  end.

(** The order in which a run iterates over a set. *)
Record hash_order : Type := HashOrder {
  set_iter : list atom → list atom;
  set_iter_perm : ∀ s, set_iter s ≡ₚ s
}.

Definition insertion_order : hash_order :=
  {| set_iter := λ s, s; set_iter_perm := λ s, reflexivity s |}.

Definition reverse_order : hash_order :=
  {| set_iter := reverse; set_iter_perm := reverse_Permutation |}.

(** ** Sorting *)

(** [sorted] compares with [<] only, and the first comparison that
    raises ends it.  It is modelled in its insertion form: each item in
    turn is placed in the sorted prefix, before the first member it is
    less than.  (CPython's sort finds the place by bisection and merges
    long runs; on a list whose items [<] orders it returns the same list,
    and on a list that holds a text and a number it raises as well.) *)
Fixpoint insort (pivot : atom) (prefix : list atom) : result (list atom) :=
  match prefix with
  | [] => Ok [pivot]
  | y :: rest =>
      b <- py_lt pivot y ;;
      if b : bool then Ok (pivot :: y :: rest)
      else (rest' <- insort pivot rest ;; Ok (y :: rest'))
  end.

Definition sorted (l : list atom) : result (list atom) :=
  for_each (λ prefix pivot, insort pivot prefix) [] l.

(** ** The file system and standard output *)

(** The files of the working directory: name to contents. *)
Abbreviation filesystem := (gmap string string).

(** [open(name, 'r')] followed by reading the whole file. *)
Definition open_read (fs : filesystem) (name : string) : result string :=
  match fs !! name with
  | Some text => Ok text
  | None => Raise FileNotFoundError
  end.

(** A program that writes to standard output: from the output so far to
    the output after it and its outcome. *)
Definition io (A : Type) : Type := string → string * result A.

Definition io_ret {A : Type} (a : A) : io A := λ out, (out, Ok a).

Definition io_bind {A B : Type} (m : io A) (k : A → io B) : io B :=
  λ out,
    match m out with
    | (out', Ok a) => k a out'
    | (out', Raise e) => (out', Raise e)
    end.

Definition io_lift {A : Type} (r : result A) : io A := λ out, (out, r).

Notation "x <~ m ;; k" := (io_bind m (fun x => k))
  (at level 100, m at next level, right associativity).

Definition newline : string := String (Ascii.ascii_of_nat 10) "".

(** All the characters of a text pass a test. *)
Fixpoint string_forall (test : Ascii.ascii → bool) (s : string) : bool :=
  match s with
  | EmptyString => true
  | String c s' => test c && string_forall test s'
  end.

Definition is_ascii (s : string) : bool :=
  string_forall (λ c, (Ascii.N_of_ascii c <? 128)%N) s.

(** The standard output of a run: the texts its encoding can encode.  An
    ASCII stream refuses every text with a character outside ASCII, a
    UTF-8 stream a text with a lone surrogate; all take ASCII text. *)
Record stream : Type := Stream {
  encodable : string → bool;
  encodable_ascii : ∀ s, is_ascii s = true → encodable s = true
}.

Definition ascii_stream : stream :=
  {| encodable := is_ascii; encodable_ascii := λ s H, H |}.

(** [print(s)]: the text and a line end; a text the stream cannot encode
    raises [UnicodeEncodeError] and nothing of it is written. *)
Definition print (o : stream) (s : string) : io unit :=
  λ out,
    if encodable o s then (out +:+ s +:+ newline, Ok tt)
    else (out, Raise UnicodeEncodeError).

Fixpoint io_for_each {A : Type} (body : A → io unit) (items : list A) : io unit :=
  match items with
  | [] => io_ret tt
  | x :: items' => _ <~ body x ;; io_for_each body items'
  end.

Ltac monad_simpl := cbn [insort for_each bind].

(** ** Vocabulary of the properties *)

(** Two atoms that [<] accepts. *)
Definition comparable (a b : atom) : bool :=
  match py_lt a b with
  | Ok _ => true
  | Raise _ => false
  end.

Definition atom_lt (a b : atom) : Prop := py_lt a b = Ok true.

Definition is_text (a : atom) : bool :=
  match a with
  | AStr _ => true
  | _ => false
  end.

Definition is_number (a : atom) : bool :=
  match as_int a with
  | Some _ => true
  | None => false
  end.

(** The representative of an atom under [==]: [py_eq a b] holds exactly
    when [norm a = norm b]. *)
Definition norm (a : atom) : atom :=
  match a with
  | ABool b => AInt (if b then 1%Z else 0%Z)
  | _ => a
  end.

(** The invariant of a set: no two members are equal under [==]. *)
Definition is_set (s : list atom) : Prop := NoDup (norm <$> s).

(** The lists [sorted] accepts: at most one item, or items that [<]
    accepts pairwise. *)
Definition pairwise_comparable (l : list atom) : Prop :=
  ∀ x y, x ∈ l → y ∈ l → comparable x y = true.

Definition uniform (l : list atom) : Prop :=
  (length l ≤ 1)%nat ∨ pairwise_comparable l.

(** The loop of [sorted], from a prefix already sorted. *)
Definition sort_loop (prefix l : list atom) : result (list atom) :=
  for_each (λ prefix pivot, insort pivot prefix) prefix l.

Definition is_object (v : value) : bool :=
  match v with
  | Object _ => true
  | _ => false
  end.

(** A record of a valid input: an object whose [timezone], where present
    and not null, is a text. *)
Definition valid_record (station : value) : bool :=
  match station with
  | Object fields =>
      match fields !! "timezone" with
      | None | Some (Atom ANone) | Some (Atom (AStr _)) => true
      | Some _ => false
      end
  | _ => false
  end.

(** A valid input: a JSON array of such records. *)
Definition valid_input (stations : value) : bool :=
  match stations with
  | Array items => forallb valid_record items
  | _ => false
  end.

Definition is_container (v : value) : bool :=
  match v with
  | Atom _ => false
  | _ => true
  end.

(** [v] is the [timezone] field of one of the records [items]. *)
Definition timezone_in (items : list value) (v : value) : Prop :=
  ∃ fields, Object fields ∈ items ∧ fields !! "timezone" = Some v.

(** The text made of the given lines, each with its line end. *)
Definition unlines (lines : list string) : string :=
  foldr (λ line rest, line +:+ newline +:+ rest) "" lines.

(** A text without a line end in it. *)
Definition no_newline (s : string) : bool :=
  string_forall (λ c, negb (Ascii.eqb c (Ascii.ascii_of_nat 10))) s.

(** The lines of a text, as a reader of the output sees them: the text is
    cut after every line end. *)
Fixpoint lines (s : string) : list string :=
  match s with
  | EmptyString => []
  | String c s' =>
      if Ascii.eqb c (Ascii.ascii_of_nat 10) then "" :: lines s'
      else
        match lines s' with
        | [] => [String c ""]
        | line :: rest => String c line :: rest
        end
  end.

(** ** The program *)

Section Program.

(** [json.loads]: the decoded value, or [None] where the text is not
    valid JSON. *)
Variable json_loads : string → option value.

Definition json_load (text : string) : result value :=
  match json_loads text with
  | Some v => Ok v
  | None => Raise JSONDecodeError
  end.

(** The body of the loop of [find_unique_timezones], lines 10 to 12. *)
Definition collect (timezones : list atom) (station : value) : result (list atom) :=
  timezone <- py_get station "timezone" ;;
  if is_not_none timezone then set_add timezone timezones
  else Ok timezones.

(** Lines 7 to 14, from the decoded [stations] on. *)
Definition timezones_of (h : hash_order) (stations : value) : result (list atom) :=
  items <- py_iter stations ;;
  timezones <- for_each collect [] items ;;
  sorted (set_iter h timezones).

Definition find_unique_timezones (h : hash_order) (fs : filesystem)
  : result (list atom) :=
  text <- open_read fs "stations.json" ;;
  stations <- json_load text ;;
  timezones_of h stations.

(** The [__main__] block. *)
Definition main (o : stream) (h : hash_order) (fs : filesystem) : io unit :=
  unique_timezones <~ io_lift (find_unique_timezones h fs) ;;
  _ <~ print o ("Found " +:+ pretty (length unique_timezones) +:+ " unique timezones:") ;;
  io_for_each (λ timezone, print o (py_str timezone)) unique_timezones.

(** A run of the program from an empty standard output. *)
Definition run (o : stream) (h : hash_order) (fs : filesystem)
  : string * result unit :=
  main o h fs "".

(** The input file is there and decodes to [stations]. *)
Definition loaded (fs : filesystem) (stations : value) : Prop :=
  ∃ text, fs !! "stations.json" = Some text ∧ json_loads text = Some stations.

End Program.

(** ** Inputs of the scenarios *)

Definition record (timezone : value) : value := Object {["timezone" := timezone]}.

Definition text (s : string) : value := Atom (AStr s).

Definition scenario1 : value :=
  Array [record (text "UTC"); record (text "UTC"); record (text "America/New_York")].

Definition scenario2 : value :=
  Array [Object {["name" := text "A"]}; record (Atom ANone)].

(** A text between double quotes. *)
Definition quoted (s : string) : string :=
  String (Ascii.ascii_of_nat 34) s +:+ String (Ascii.ascii_of_nat 34) "".

Definition scenario1_text : string :=
  "[{" +:+ quoted "timezone" +:+ ": " +:+ quoted "UTC" +:+ "}, {"
  +:+ quoted "timezone" +:+ ": " +:+ quoted "UTC" +:+ "}, {"
  +:+ quoted "timezone" +:+ ": " +:+ quoted "America/New_York" +:+ "}]".

Definition scenario2_text : string :=
  "[{" +:+ quoted "name" +:+ ": " +:+ quoted "A" +:+ "}, {"
  +:+ quoted "timezone" +:+ ": null}]".

Definition scenario2_rest_text : string :=
  "[{" +:+ quoted "name" +:+ ": " +:+ quoted "A" +:+ "}]".

Definition number_text : string := "[{" +:+ quoted "timezone" +:+ ": 5}]".

Definition list_text : string := "[{" +:+ quoted "timezone" +:+ ": []}]".

Definition mixed_text : string :=
  "[{" +:+ quoted "timezone" +:+ ": 5}, {"
  +:+ quoted "timezone" +:+ ": " +:+ quoted "UTC" +:+ "}]".

Definition empty_text : string :=
  "[{" +:+ quoted "timezone" +:+ ": " +:+ quoted "" +:+ "}, {"
  +:+ quoted "timezone" +:+ ": " +:+ quoted "UTC" +:+ "}]".

(** A timezone with a line end in it, written with the escape of JSON. *)
Definition two_line_text : string :=
  "[{" +:+ quoted "timezone" +:+ ": " +:+ quoted "a\nb" +:+ "}]".

Definition two_line_input : value :=
  Array [record (text ("a" +:+ newline +:+ "b"))].

(** [json.loads] on the texts used below, with the values it decodes
    them to; every other text is refused. *)
Definition sample_table : gmap string value :=
  list_to_map
    [(scenario1_text, scenario1);
     (scenario2_text, scenario2);
     (scenario2_rest_text, Array [Object {["name" := text "A"]}]);
     ("[]", Array []);
     (number_text, Array [record (Atom (AInt 5))]);
     (list_text, Array [record (Array [])]);
     (mixed_text, Array [record (Atom (AInt 5)); record (text "UTC")]);
     (empty_text, Array [record (text ""); record (text "UTC")]);
     (two_line_text, two_line_input)].

Definition sample_loads (s : string) : option value := sample_table !! s.

(** The working directory with [stations.json] holding [s]. *)
Definition stations_file (s : string) : filesystem := {["stations.json" := s]}.

(** ** Further vocabulary: shapes of records and inputs at the edges *)

(** A record the loop passes without an exception: an object whose
    [timezone], where present, is a scalar. *)
Definition passes (station : value) : bool :=
  match station with
  | Object fields =>
      match fields !! "timezone" with
      | None | Some (Atom _) => true
      | Some _ => false
      end
  | _ => false
  end.

(** The [timezone] of a record where it is a text. *)
Definition timezone_text (station : value) : option string :=
  match station with
  | Object fields =>
      match fields !! "timezone" with
      | Some (Atom (AStr s)) => Some s
      | _ => None
      end
  | _ => None
  end.

(** The texts that are the [timezone] of a record, in the order of the
    records, with their repetitions. *)
Definition timezone_texts (items : list value) : list string :=
  omap timezone_text items.

Definition first_bad_text : string :=
  "[{" +:+ quoted "timezone" +:+ ": " +:+ quoted "UTC" +:+ "}, {"
  +:+ quoted "timezone" +:+ ": 5}, 7]".

Definition scenario1_permuted_text : string :=
  "[{" +:+ quoted "timezone" +:+ ": " +:+ quoted "America/New_York" +:+ "}, {"
  +:+ quoted "timezone" +:+ ": " +:+ quoted "UTC" +:+ "}, {"
  +:+ quoted "timezone" +:+ ": " +:+ quoted "UTC" +:+ "}]".

Definition scenario1_once_text : string :=
  "[{" +:+ quoted "timezone" +:+ ": " +:+ quoted "UTC" +:+ "}, {"
  +:+ quoted "timezone" +:+ ": " +:+ quoted "America/New_York" +:+ "}]".

(** A text outside ASCII among the timezones. *)
Definition zurich_text : string :=
  "[{" +:+ quoted "timezone" +:+ ": " +:+ quoted "UTC" +:+ "}, {"
  +:+ quoted "timezone" +:+ ": " +:+ quoted "Zürich" +:+ "}]".

Definition integers_text : string :=
  "[{" +:+ quoted "timezone" +:+ ": 10}, {" +:+ quoted "timezone" +:+ ": 9}]".

(** [json.loads] on the texts of the edge cases below, with the values it
    decodes them to; every other text is refused. *)
Definition edge_table : gmap string value :=
  list_to_map
    [(scenario1_text, scenario1);
     (scenario1_permuted_text,
      Array [record (text "America/New_York"); record (text "UTC");
             record (text "UTC")]);
     (scenario1_once_text,
      Array [record (text "UTC"); record (text "America/New_York")]);
     (first_bad_text,
      Array [record (text "UTC"); record (Atom (AInt 5)); Atom (AInt 7)]);
     (integers_text, Array [record (Atom (AInt 10)); record (Atom (AInt 9))]);
     (zurich_text, Array [record (text "UTC"); record (text "Zürich")]);
     ("{}", Object ∅);
     ("null", Atom ANone)].

Definition edge_loads (s : string) : option value := edge_table !! s.

(** ** The float [NaN]

    [json.load] takes the literal [NaN] and gives for it one float object,
    the same at every occurrence.  It is hashable, by its identity; [==]
    and [<] with it are false against every number, itself included, and
    [<] raises against a text.  The value type above has no floats; the
    collector over values that may hold [NaN] is embedded here apart, the
    other scalars being the atoms above. *)
Module WithNaN.

Inductive scalar : Type :=
| Plain (a : atom)
| Nan.

Local Unset Elimination Schemes.
Inductive value : Type :=
| Scalar (x : scalar)
| Array (items : list value)
| Object (fields : gmap string value).
Local Set Elimination Schemes.

(** The atoms among themselves, as above. *)
Definition atoms_lt (a b : atom) : result bool := py_lt a b.

(** [x < y]. *)
Definition py_lt (x y : scalar) : result bool :=
  match x, y with
  | Plain a, Plain b => atoms_lt a b
  | Nan, Nan => Ok false
  | Nan, Plain a | Plain a, Nan =>
      if is_number a then Ok false else Raise TypeError
  end.

(** The test of a set for a member: the same object, or equal under
    [==]. *)
Definition same_member (x y : scalar) : bool :=
  match x, y with
  | Plain a, Plain b => py_eq a b
  | Nan, Nan => true
  | _, _ => false
  end.

Definition py_iter (v : value) : result (list value) :=
  match v with
  | Array items => Ok items
  | Object fields => Ok ((λ kv, Scalar (Plain (AStr kv.1))) <$> map_to_list fields)
  | Scalar (Plain (AStr s)) =>
      Ok ((λ c, Scalar (Plain (AStr (String c "")))) <$> String.list_ascii_of_string s)
  | Scalar _ => Raise TypeError
  end.

Definition py_get (v : value) (key : string) : result value :=
  match v with
  | Object fields => Ok (default (Scalar (Plain ANone)) (fields !! key))
  | _ => Raise AttributeError
  end.

Definition is_not_none (v : value) : bool :=
  match v with
  | Scalar (Plain ANone) => false
  | _ => true
  end.

Definition set_add (v : value) (s : list scalar) : result (list scalar) :=
  match v with
  | Scalar x => Ok (if existsb (same_member x) s then s else s ++ [x])
  | _ => Raise TypeError
  end.

Record hash_order : Type := HashOrder {
  set_iter : list scalar → list scalar;
  set_iter_perm : ∀ s, set_iter s ≡ₚ s
}.

Definition insertion_order : hash_order :=
  {| set_iter := λ s, s; set_iter_perm := λ s, reflexivity s |}.

Definition reverse_order : hash_order :=
  {| set_iter := reverse; set_iter_perm := reverse_Permutation |}.

Fixpoint insort (pivot : scalar) (prefix : list scalar) : result (list scalar) :=
  match prefix with
  | [] => Ok [pivot]
  | y :: rest =>
      b <- py_lt pivot y ;;
      if b : bool then Ok (pivot :: y :: rest)
      else (rest' <- insort pivot rest ;; Ok (y :: rest'))
  end.

Definition has_nan (l : list scalar) : bool :=
  existsb (λ x, match x with Nan => true | Plain _ => false end) l.

(** [sorted].  With [NaN] in the list [<] is no order, and where the
    interpreter leaves [NaN] among three items or more depends on how its
    sort finds runs: no result is given there ([None]).  On two items the
    sort makes the one comparison of the second with the first, as the
    insertion form does. *)
Definition sorted (l : list scalar) : option (result (list scalar)) :=
  if has_nan l && (2 <? length l) then None
  else Some (for_each (λ prefix pivot, insort pivot prefix) [] l).

Definition collect (timezones : list scalar) (station : value)
  : result (list scalar) :=
  timezone <- py_get station "timezone" ;;
  if is_not_none timezone then set_add timezone timezones
  else Ok timezones.

Definition timezones_of (h : hash_order) (stations : value)
  : option (result (list scalar)) :=
  match (items <- py_iter stations ;; for_each collect [] items) with
  | Ok timezones => sorted (set_iter h timezones)
  | Raise e => Some (Raise e)
  end.

Definition find_unique_timezones (json_loads : string → option value)
  (h : hash_order) (fs : filesystem) : option (result (list scalar)) :=
  match fs !! "stations.json" with
  | None => Some (Raise FileNotFoundError)
  | Some contents =>
      match json_loads contents with
      | None => Some (Raise JSONDecodeError)
      | Some stations => timezones_of h stations
      end
  end.

Definition record (timezone : value) : value := Object {["timezone" := timezone]}.

Definition nan_text : string :=
  "[{" +:+ quoted "timezone" +:+ ": NaN}, {" +:+ quoted "timezone" +:+ ": 1}]".

(** [json.loads] on that text. *)
Definition sample_loads (s : string) : option value :=
  if decide (s = nan_text)
  then Some (Array [record (Scalar Nan); record (Scalar (Plain (AInt 1)))])
  else None.

End WithNaN.

(** ** The order on atoms *)

Lemma string_ltb_strict (s t : string) :
  String.ltb s t = true ↔ strict String.le s t.
Proof.
  unfold strict, String.le, String.ltb, String.leb.
  rewrite (String.compare_antisym t s).
  destruct (String.compare s t); simpl; intuition congruence.
Qed.

Lemma string_ltb_irrefl (s : string) : String.ltb s s = false.
Proof.
  apply not_true_is_false. rewrite string_ltb_strict. apply irreflexivity, _.
Qed.

Lemma string_ltb_trans (s t u : string) :
  String.ltb s t = true → String.ltb t u = true → String.ltb s u = true.
Proof. rewrite !string_ltb_strict. apply transitivity. Qed.

Lemma string_ltb_total (s t : string) :
  s ≠ t → String.ltb s t = false → String.ltb t s = true.
Proof.
  intros Hne Hlt. apply string_ltb_strict.
  destruct (total String.le s t) as [Hle|Hle].
  - exfalso. apply not_true_iff_false in Hlt. apply Hlt, string_ltb_strict.
    split; [done|]. intros Hle'. by apply Hne, (anti_symm String.le).
  - split; [done|]. intros Hle'. by apply Hne, (anti_symm String.le).
Qed.

Lemma py_eq_norm (a b : atom) : py_eq a b = true ↔ norm a = norm b.
Proof.
  destruct a as [|[]| |], b as [|[]| |]; cbn [py_eq as_int norm];
    rewrite ?Z.eqb_eq, ?String.eqb_eq; split; congruence.
Qed.

Lemma comparable_sym (a b : atom) : comparable a b = true → comparable b a = true.
Proof. by destruct a, b. Qed.

Lemma comparable_trans (a b c : atom) :
  comparable a b = true → comparable b c = true → comparable a c = true.
Proof. by destruct a, b, c. Qed.

Lemma comparable_kind (a b : atom) :
  comparable a b = true ↔
    (is_text a = true ∧ is_text b = true) ∨ (is_number a = true ∧ is_number b = true).
Proof. destruct a, b; simpl; intuition congruence. Qed.

Lemma Ok_inj {A : Type} (x y : A) : Ok x = Ok y → x = y.
Proof. congruence. Qed.

Lemma atom_lt_comparable (a b : atom) : atom_lt a b → comparable a b = true.
Proof. unfold atom_lt, comparable. by intros ->. Qed.

Lemma atom_lt_irrefl (a : atom) : ¬ atom_lt a a.
Proof.
  unfold atom_lt. destruct a as [|[]| |]; cbn [py_lt as_int]; try done.
  - rewrite Z.ltb_irrefl. congruence.
  - rewrite string_ltb_irrefl. congruence.
Qed.

Lemma atom_lt_trans (a b c : atom) : atom_lt a b → atom_lt b c → atom_lt a c.
Proof.
  unfold atom_lt.
  destruct a as [|[]| |], b as [|[]| |], c as [|[]| |];
    cbn [py_lt as_int]; try done;
    intros H1%Ok_inj H2%Ok_inj; f_equal;
    try (apply Z.ltb_lt; apply Z.ltb_lt in H1, H2; lia).
  by eapply string_ltb_trans.
Qed.

Lemma atom_lt_total (a b : atom) :
  comparable a b = true → norm a ≠ norm b → py_lt a b = Ok false → atom_lt b a.
Proof.
  unfold atom_lt, comparable.
  destruct a as [|[]| |], b as [|[]| |];
    cbn [py_lt as_int norm]; try done;
    intros _ Hne Hlt%Ok_inj; f_equal;
    try (apply Z.ltb_lt; apply Z.ltb_ge in Hlt;
         assert (∀ m n : Z, AInt m ≠ AInt n → m ≠ n) as Hz by congruence;
         apply Hz in Hne; lia).
  apply string_ltb_total; [congruence|done].
Qed.

(** ** Sorting *)

Global Instance pairwise_comparable_perm :
  Proper ((≡ₚ) ==> iff) pairwise_comparable.
Proof.
  assert (∀ l1 l2, l1 ≡ₚ l2 → pairwise_comparable l1 → pairwise_comparable l2)
    as Himp.
  { intros l1 l2 Hp H x y Hx Hy. apply H; by rewrite Hp. }
  intros l1 l2 Hp. split; apply Himp; [done|by symmetry].
Qed.

Global Instance uniform_perm : Proper ((≡ₚ) ==> iff) uniform.
Proof. intros l1 l2 Hp. unfold uniform. by rewrite Hp. Qed.

Global Instance is_set_perm : Proper ((≡ₚ) ==> iff) is_set.
Proof. intros l1 l2 Hp. unfold is_set. by rewrite Hp. Qed.

Lemma insort_perm (pivot : atom) (prefix prefix' : list atom) :
  insort pivot prefix = Ok prefix' → prefix' ≡ₚ pivot :: prefix.
Proof.
  revert prefix'. induction prefix as [|y rest IH]; intros prefix'; monad_simpl.
  - by intros [= <-].
  - destruct (py_lt pivot y) as [[]|]; monad_simpl; [by intros [= <-]| |done].
    destruct (insort pivot rest) as [rest'|]; monad_simpl; [|done].
    intros [= <-]. rewrite (IH rest' eq_refl). apply Permutation_swap.
Qed.

Lemma insort_ok (pivot : atom) (prefix : list atom) :
  Forall (λ y, comparable pivot y = true) prefix →
  ∃ prefix', insort pivot prefix = Ok prefix'.
Proof.
  induction 1 as [|y rest Hy _ [rest' IH]]; monad_simpl; [by eexists|].
  unfold comparable in Hy. destruct (py_lt pivot y) as [[]|]; monad_simpl; [by eexists| |done].
  rewrite IH. monad_simpl. by eexists.
Qed.

Lemma insort_head (pivot y : atom) (rest prefix' : list atom) :
  insort pivot (y :: rest) = Ok prefix' → comparable pivot y = true.
Proof. monad_simpl. unfold comparable. by destruct (py_lt pivot y). Qed.

Lemma insort_raise (pivot : atom) (prefix : list atom) (e : exn) :
  insort pivot prefix = Raise e → e = TypeError.
Proof.
  induction prefix as [|y rest IH]; monad_simpl; [done|].
  destruct (py_lt pivot y) as [[]|e'] eqn:Hlt; monad_simpl; [done| |].
  - destruct (insort pivot rest); monad_simpl; [done|]. intros [= <-]. by apply IH.
  - intros [= <-]. destruct pivot, y; cbn in Hlt; congruence.
Qed.

Lemma insort_sorted (pivot : atom) (prefix prefix' : list atom) :
  StronglySorted atom_lt prefix →
  Forall (λ y, norm pivot ≠ norm y) prefix →
  insort pivot prefix = Ok prefix' →
  StronglySorted atom_lt prefix'.
Proof.
  intros Hsorted. revert prefix'.
  induction Hsorted as [|y rest Hrest IH Hy]; intros prefix' Hne; monad_simpl.
  - intros [= <-]. repeat constructor.
  - apply Forall_cons in Hne as [Hne_y Hne_rest].
    destruct (py_lt pivot y) as [[]|] eqn:Hlt; monad_simpl; [| |done].
    + intros [= <-]. constructor; [by constructor|].
      constructor; [done|]. eapply Forall_impl; [exact Hy|].
      intros z Hz. by eapply atom_lt_trans.
    + destruct (insort pivot rest) as [rest'|] eqn:Hins; monad_simpl; [|done].
      intros [= <-]. constructor; [by apply IH|].
      rewrite (insort_perm _ _ _ Hins). constructor; [|done].
      apply atom_lt_total; [|done..].
      unfold comparable. by rewrite Hlt.
Qed.

Lemma sort_loop_ok (prefix l : list atom) :
  pairwise_comparable (prefix ++ l) →
  ∃ l', sort_loop prefix l = Ok l'.
Proof.
  revert prefix. induction l as [|x l IH]; intros prefix Hpair; simpl.
  { by eexists. }
  destruct (insort_ok x prefix) as [prefix' Hins].
  { apply Forall_forall. intros y Hy. apply Hpair; set_solver. }
  unfold sort_loop in *. simpl. rewrite Hins. simpl. apply IH.
  rewrite (insort_perm _ _ _ Hins). simpl. by rewrite Permutation_middle.
Qed.

Lemma sort_loop_perm (prefix l l' : list atom) :
  sort_loop prefix l = Ok l' → l' ≡ₚ prefix ++ l.
Proof.
  unfold sort_loop. revert prefix.
  induction l as [|x l IH]; intros prefix; simpl.
  { intros [= <-]. by rewrite app_nil_r. }
  destruct (insort x prefix) as [prefix'|] eqn:Hins; simpl; [|done].
  intros ->%IH. rewrite (insort_perm _ _ _ Hins). simpl. by rewrite Permutation_middle.
Qed.

Lemma sort_loop_uniform (prefix l l' : list atom) :
  uniform prefix → sort_loop prefix l = Ok l' → uniform (prefix ++ l).
Proof.
  unfold sort_loop. revert prefix.
  induction l as [|x l IH]; intros prefix Huni; simpl.
  { by rewrite app_nil_r. }
  destruct (insort x prefix) as [prefix'|] eqn:Hins; simpl; [|done].
  intros Hloop. rewrite <-Permutation_middle, app_comm_cons, <-(insort_perm _ _ _ Hins).
  apply IH; [|done]. rewrite (insort_perm _ _ _ Hins).
  destruct prefix as [|y rest]; [left; simpl; lia|].
  right. apply insort_head in Hins.
  assert (∀ z, z ∈ y :: rest → comparable y z = true) as Hy.
  { intros z Hz. destruct Huni as [Hlen|Hpair]; [|apply Hpair; set_solver].
    destruct rest; [|simpl in Hlen; lia].
    apply list_elem_of_singleton in Hz as ->.
    eauto using comparable_trans, comparable_sym. }
  assert (∀ z, z ∈ x :: y :: rest → comparable y z = true) as Hy'.
  { intros z Hz. apply elem_of_cons in Hz as [->|Hz];
      [by apply comparable_sym|by apply Hy]. }
  intros z1 z2 Hz1%Hy' Hz2%Hy'. eauto using comparable_trans, comparable_sym.
Qed.

Lemma sort_loop_sorted (prefix l l' : list atom) :
  StronglySorted atom_lt prefix → is_set (prefix ++ l) →
  sort_loop prefix l = Ok l' → StronglySorted atom_lt l'.
Proof.
  unfold sort_loop. revert prefix.
  induction l as [|x l IH]; intros prefix Hsorted Hset; simpl.
  { by intros [= <-]. }
  destruct (insort x prefix) as [prefix'|] eqn:Hins; simpl; [|done].
  apply IH.
  - eapply insort_sorted; [done| |done].
    unfold is_set in Hset. rewrite <-Permutation_middle in Hset. simpl in Hset.
    apply NoDup_cons in Hset as [Hx _]. apply Forall_forall. intros y Hy Heq.
    apply Hx. rewrite Heq. apply list_elem_of_fmap_2. set_solver.
  - rewrite (insort_perm _ _ _ Hins). simpl. by rewrite Permutation_middle.
Qed.

Lemma sort_loop_raise (prefix l : list atom) (e : exn) :
  sort_loop prefix l = Raise e → e = TypeError.
Proof.
  unfold sort_loop. revert prefix. induction l as [|x l IH]; intros prefix; simpl; [done|].
  destruct (insort x prefix) as [prefix'|e'] eqn:Hins; simpl; [by apply IH|].
  intros [= <-]. by eapply insort_raise.
Qed.

Lemma sorted_sort_loop (l : list atom) : sorted l = sort_loop [] l.
Proof. done. Qed.

Lemma sorted_ok_iff (l : list atom) : (∃ l', sorted l = Ok l') ↔ uniform l.
Proof.
  rewrite sorted_sort_loop. split.
  - intros [l' Hl']. apply (sort_loop_uniform [] l l'); [left; simpl; lia|done].
  - intros [Hlen|Hpair]; [|by apply sort_loop_ok].
    destruct l as [|x [|y l]]; [by eexists..|simpl in Hlen; lia].
Qed.

Lemma sorted_perm (l l' : list atom) : sorted l = Ok l' → l' ≡ₚ l.
Proof. rewrite sorted_sort_loop. apply sort_loop_perm. Qed.

Lemma sorted_strict (l l' : list atom) :
  is_set l → sorted l = Ok l' → StronglySorted atom_lt l'.
Proof. rewrite sorted_sort_loop. apply (sort_loop_sorted [] l l'). constructor. Qed.

Lemma sorted_raise (l : list atom) (e : exn) : sorted l = Raise e → e = TypeError.
Proof. rewrite sorted_sort_loop. apply sort_loop_raise. Qed.

Lemma sorted_mixed (l : list atom) : ¬ uniform l → sorted l = Raise TypeError.
Proof.
  intros Hnot. destruct (sorted l) as [l'|e] eqn:Hl.
  - destruct Hnot. apply sorted_ok_iff. by eexists.
  - by apply sorted_raise in Hl as ->.
Qed.

(** The result of [sorted] on a set does not depend on the order in
    which the set is listed. *)
Lemma sorted_order_irrelevant (l1 l2 : list atom) :
  is_set l1 → l1 ≡ₚ l2 → sorted l1 = sorted l2.
Proof.
  intros Hset Hperm.
  destruct (sorted l1) as [l1'|e1] eqn:H1, (sorted l2) as [l2'|e2] eqn:H2.
  - f_equal. apply (StronglySorted_unique_strong atom_lt).
    + intros x y _ _ Hxy Hyx. destruct (atom_lt_irrefl x). by eapply atom_lt_trans.
    + by eapply sorted_strict.
    + eapply sorted_strict; [|done]. by rewrite <-Hperm.
    + by rewrite (sorted_perm _ _ H1), (sorted_perm _ _ H2).
  - assert (uniform l2) as [l' Hl']%sorted_ok_iff; [|congruence].
    rewrite <-Hperm. apply sorted_ok_iff. by eexists.
  - assert (uniform l1) as [l' Hl']%sorted_ok_iff; [|congruence].
    rewrite Hperm. apply sorted_ok_iff. by eexists.
  - by apply sorted_raise in H1 as ->, H2 as ->.
Qed.

(** ** The loop of [find_unique_timezones] *)

Lemma for_each_app {S A : Type} (body : S → A → result S) (s : S) (l1 l2 : list A) :
  for_each body s (l1 ++ l2) = (s' <- for_each body s l1 ;; for_each body s' l2).
Proof.
  revert s. induction l1 as [|x l1 IH]; intros s; simpl; [done|].
  destruct (body s x); simpl; [apply IH|done].
Qed.

Lemma collect_skip (timezones : list atom) (fields : gmap string value) :
  fields !! "timezone" = None ∨ fields !! "timezone" = Some (Atom ANone) →
  collect timezones (Object fields) = Ok timezones.
Proof. unfold collect. simpl. by intros [-> | ->]. Qed.

Lemma collect_atom (timezones : list atom) (fields : gmap string value) (a : atom) :
  fields !! "timezone" = Some (Atom a) → a ≠ ANone →
  collect timezones (Object fields)
  = Ok (if existsb (py_eq a) timezones then timezones else timezones ++ [a]).
Proof. unfold collect. simpl. intros -> ?. by destruct a. Qed.

Lemma collect_container (timezones : list atom) (fields : gmap string value) (v : value) :
  fields !! "timezone" = Some v → is_container v = true →
  collect timezones (Object fields) = Raise TypeError.
Proof. unfold collect. simpl. intros -> ?. by destruct v. Qed.

Lemma collect_not_object (timezones : list atom) (station : value) :
  is_object station = false → collect timezones station = Raise AttributeError.
Proof. by destruct station. Qed.

(** What one turn of the loop does, by the shape of the record. *)
Lemma collect_cases (timezones : list atom) (station : value) :
  (is_object station = false ∧ collect timezones station = Raise AttributeError) ∨
  (∃ fields, station = Object fields ∧
     ((fields !! "timezone" = None ∨ fields !! "timezone" = Some (Atom ANone)) ∧
        collect timezones station = Ok timezones ∨
      (∃ a, fields !! "timezone" = Some (Atom a) ∧ a ≠ ANone ∧
         collect timezones station
         = Ok (if existsb (py_eq a) timezones then timezones else timezones ++ [a])) ∨
      (∃ v, fields !! "timezone" = Some v ∧ is_container v = true ∧
         collect timezones station = Raise TypeError))).
Proof.
  destruct station as [a|items|fields];
    [left; split; [done|by apply collect_not_object]..|].
  right. exists fields.
  split; [done|]. destruct (fields !! "timezone") as [[[]| |]|] eqn:Hf.
  - left. split; [by right|]. apply collect_skip. by right.
  - right; left. eexists. split_and!; [done..|]. by apply collect_atom.
  - right; left. eexists. split_and!; [done..|]. by apply collect_atom.
  - right; left. eexists. split_and!; [done..|]. by apply collect_atom.
  - right; right. eexists. split_and!; [done..|]. by eapply collect_container.
  - right; right. eexists. split_and!; [done..|]. by eapply collect_container.
  - left. split; [by left|]. apply collect_skip. by left.
Qed.

Lemma existsb_py_eq (a : atom) (s : list atom) :
  existsb (py_eq a) s = true ↔ norm a ∈ norm <$> s.
Proof.
  rewrite existsb_exists, list_elem_of_fmap. setoid_rewrite py_eq_norm.
  setoid_rewrite <-list_elem_of_In. naive_solver.
Qed.

Lemma timezone_in_cons (station : value) (items : list value) (v : value) :
  timezone_in (station :: items) v ↔
    (∃ fields, station = Object fields ∧ fields !! "timezone" = Some v) ∨
    timezone_in items v.
Proof. unfold timezone_in. setoid_rewrite elem_of_cons. naive_solver. Qed.

(** The loop keeps the set a set, and [None] out of it. *)
Lemma collect_loop_set (s s' : list atom) (items : list value) :
  is_set s → ANone ∉ s → for_each collect s items = Ok s' →
  is_set s' ∧ ANone ∉ s'.
Proof.
  revert s. induction items as [|station items IH]; intros s Hset Hnone; simpl.
  { by intros [= <-]. }
  destruct (collect_cases s station)
    as [[_ ->]|(fields & -> & [[_ ->]|[(a & _ & Ha & ->)|(v & _ & _ & ->)]])];
    simpl; try done; [by apply IH|].
  destruct (existsb (py_eq a) s) eqn:Hmem; [by apply IH|].
  apply IH.
  - unfold is_set in *. rewrite fmap_app. simpl. apply NoDup_app.
    split_and!; [done| |apply NoDup_singleton].
    intros x Hx ->%list_elem_of_singleton.
    apply existsb_py_eq in Hx. congruence.
  - rewrite elem_of_app, list_elem_of_singleton. naive_solver.
Qed.

(** Every member of the set after the loop was there before it or is the
    [timezone] of a record. *)
Lemma collect_loop_sound (s s' : list atom) (items : list value) (a : atom) :
  for_each collect s items = Ok s' → a ∈ s' →
  a ∈ s ∨ (a ≠ ANone ∧ timezone_in items (Atom a)).
Proof.
  revert s. induction items as [|station items IH]; intros s; simpl.
  { intros [= <-]. by left. }
  destruct (collect_cases s station)
    as [[_ ->]|(fields & -> & [[_ ->]|[(b & Hb & Hnone & ->)|(v & _ & _ & ->)]])];
    simpl; try done.
  - intros Hloop Ha. destruct (IH _ Hloop Ha) as [?|[? ?]]; [by left|].
    right. split; [done|]. apply timezone_in_cons. by right.
  - intros Hloop Ha. destruct (IH _ Hloop Ha) as [Hin|[? ?]].
    + destruct (existsb (py_eq b) s); [by left|].
      apply elem_of_app in Hin as [?| ->%list_elem_of_singleton]; [by left|].
      right. split; [done|]. apply timezone_in_cons. left. by exists fields.
    + right. split; [done|]. apply timezone_in_cons. by right.
Qed.

(** The loop only adds to the set, and the [timezone] of every record has
    an equal member in the set after it. *)
Lemma collect_loop_complete (s s' : list atom) (items : list value) :
  for_each collect s items = Ok s' →
  (∀ a, a ∈ s → a ∈ s') ∧
  (∀ a, timezone_in items (Atom a) → a ≠ ANone → norm a ∈ norm <$> s').
Proof.
  revert s. induction items as [|station items IH]; intros s; simpl.
  { intros [= <-]. split; [done|]. intros a (fields & []%elem_of_nil & _). }
  destruct (collect_cases s station)
    as [[_ ->]|(fields & -> & [[Hf ->]|[(b & Hb & Hnone & ->)|(v & _ & _ & ->)]])];
    simpl; try done.
  - intros [Hmono Hall]%IH. split; [done|].
    intros a [(fields' & [= <-] & Hf')|Hin]%timezone_in_cons Ha; [|by apply Hall].
    destruct Hf as [Hf|Hf]; congruence.
  - intros [Hmono Hall]%IH. split.
    { intros a Ha. apply Hmono. destruct (existsb (py_eq b) s); [done|].
      apply elem_of_app. by left. }
    intros a [(fields' & [= <-] & Hf')|Hin]%timezone_in_cons Ha; [|by apply Hall].
    assert (a = b) as -> by congruence.
    destruct (existsb (py_eq b) s) eqn:Hmem.
    + apply existsb_py_eq in Hmem. apply list_elem_of_fmap in Hmem as (c & -> & Hc).
      apply list_elem_of_fmap_2, Hmono, Hc.
    + apply list_elem_of_fmap_2, Hmono. apply elem_of_app. right. by left.
Qed.

(** On records that are all objects the loop can only stop on a
    [timezone] that is a list or a dictionary. *)
Lemma collect_loop_ok (s : list atom) (items : list value) :
  Forall (λ station, is_object station = true) items →
  (∀ v, timezone_in items v → is_container v = false) →
  ∃ s', for_each collect s items = Ok s'.
Proof.
  intros Hobj. revert s. induction Hobj as [|station items Hstation _ IH];
    intros s Hscalar; simpl; [by eexists|].
  destruct (collect_cases s station)
    as [[? _]|(fields & -> & [[_ ->]|[(b & _ & _ & ->)|(v & Hv & Hc & _)]])];
    simpl; [congruence|..].
  - apply IH. intros v Hv. apply Hscalar, timezone_in_cons. by right.
  - apply IH. intros v Hv. apply Hscalar, timezone_in_cons. by right.
  - rewrite Hscalar in Hc; [done|]. apply timezone_in_cons. left. by exists fields.
Qed.

Lemma collect_loop_unhashable (s : list atom) (items : list value) (v : value) :
  Forall (λ station, is_object station = true) items →
  timezone_in items v → is_container v = true →
  for_each collect s items = Raise TypeError.
Proof.
  intros Hobj. revert s. induction Hobj as [|station items Hstation _ IH];
    intros s Hv Hc; simpl.
  { by destruct Hv as (fields & []%elem_of_nil & _). }
  destruct (collect_cases s station)
    as [[? _]|(fields & -> & [[Hf ->]|[(b & Hb & _ & ->)|(w & _ & _ & ->)]])];
    simpl; [congruence| | |done].
  - apply IH; [|done].
    apply timezone_in_cons in Hv as [(fields' & [= <-] & Hf')|Hin]; [|done].
    destruct v; destruct Hf; naive_solver.
  - apply IH; [|done].
    apply timezone_in_cons in Hv as [(fields' & [= <-] & Hf')|Hin]; [|done].
    destruct v; naive_solver.
Qed.

Lemma collect_loop_raise (s : list atom) (items : list value) (e : exn) :
  Forall (λ station, is_object station = true) items →
  for_each collect s items = Raise e →
  e = TypeError ∧ ∃ v, timezone_in items v ∧ is_container v = true.
Proof.
  intros Hobj. revert s. induction Hobj as [|station items Hstation _ IH];
    intros s; simpl; [done|].
  destruct (collect_cases s station)
    as [[? _]|(fields & -> & [[Hf ->]|[(b & Hb & _ & ->)|(w & Hw & Hc & ->)]])];
    simpl; [congruence|..].
  - intros (-> & v & Hv & Hc)%IH. split; [done|]. exists v. split; [|done].
    apply timezone_in_cons. by right.
  - intros (-> & v & Hv & Hc)%IH. split; [done|]. exists v. split; [|done].
    apply timezone_in_cons. by right.
  - intros [= <-]. split; [done|]. exists w. split; [|done].
    apply timezone_in_cons. left. by exists fields.
Qed.

(** ** Strings and standard output *)

Lemma string_app_cons (c : Ascii.ascii) (s t : string) :
  String c s +:+ t = String c (s +:+ t).
Proof. done. Qed.

Lemma string_app_nil_r (s : string) : s +:+ "" = s.
Proof. induction s as [|c s IH]; [done|]. by rewrite string_app_cons, IH. Qed.

Lemma string_app_assoc (s t u : string) : (s +:+ t) +:+ u = s +:+ t +:+ u.
Proof. induction s as [|c s IH]; [done|]. by rewrite !string_app_cons, IH. Qed.

Lemma string_forall_app (test : Ascii.ascii → bool) (s t : string) :
  string_forall test (s +:+ t) = string_forall test s && string_forall test t.
Proof.
  induction s as [|c s IH]; [done|].
  rewrite string_app_cons. cbn [string_forall]. by rewrite IH, andb_assoc.
Qed.

(** The decimal form of a number is made of digits. *)
Lemma pretty_N_go_forall (test : Ascii.ascii → bool) (x : N) (s : string) :
  (∀ d, test (pretty_N_char d) = true) →
  string_forall test (pretty_N_go x s) = string_forall test s.
Proof.
  intros Hdigit. revert s. induction (N.lt_wf_0 x) as [x _ IH]; intros s.
  destruct (decide (x = 0)%N) as [->|Hx]; [by rewrite pretty_N_go_0|].
  rewrite pretty_N_go_step by lia. rewrite IH.
  - cbn [string_forall]. by rewrite Hdigit.
  - apply N.div_lt; lia.
Qed.

Lemma pretty_nat_forall (test : Ascii.ascii → bool) (n : nat) :
  (∀ d, test (pretty_N_char d) = true) →
  string_forall test (pretty n) = true.
Proof.
  intros Hdigit. unfold pretty, pretty_nat, pretty, pretty_N.
  destruct (decide (N.of_nat n = 0)%N).
  - pose proof (Hdigit 0%N) as Hzero. cbn in *. by rewrite Hzero.
  - by rewrite pretty_N_go_forall.
Qed.

Lemma found_line_forall (test : Ascii.ascii → bool) (n : nat) :
  (∀ d, test (pretty_N_char d) = true) →
  string_forall test "Found " = true →
  string_forall test " unique timezones:" = true →
  string_forall test ("Found " +:+ pretty n +:+ " unique timezones:") = true.
Proof.
  intros Hdigit Hfound Hrest.
  by rewrite !string_forall_app, Hfound, Hrest, pretty_nat_forall.
Qed.

Lemma found_line_ascii (n : nat) :
  is_ascii ("Found " +:+ pretty n +:+ " unique timezones:") = true.
Proof.
  apply found_line_forall; [|done..].
  intros d. unfold pretty_N_char. by repeat case_match.
Qed.

Lemma found_line_no_newline (n : nat) :
  no_newline ("Found " +:+ pretty n +:+ " unique timezones:") = true.
Proof.
  apply found_line_forall; [|done..].
  intros d. unfold pretty_N_char. by repeat case_match.
Qed.

Lemma lines_line (line rest : string) :
  no_newline line = true →
  lines (line +:+ newline +:+ rest) = line :: lines rest.
Proof.
  induction line as [|c line IH]; [done|].
  rewrite string_app_cons. unfold no_newline. cbn [string_forall lines].
  intros [Hc Hline]%andb_prop. apply negb_true_iff in Hc. rewrite Hc.
  by rewrite (IH Hline).
Qed.

(** Cutting a text made of lines without a line end in them gives the
    lines back. *)
Lemma lines_unlines (ls : list string) :
  Forall (λ line, no_newline line = true) ls → lines (unlines ls) = ls.
Proof.
  induction 1 as [|line ls Hline _ IH]; [done|].
  cbn [unlines foldr]. rewrite lines_line by done. f_equal. exact IH.
Qed.

Lemma print_ok (o : stream) (s out : string) :
  encodable o s = true → print o s out = (out +:+ s +:+ newline, Ok tt).
Proof. unfold print. by intros ->. Qed.

Lemma print_raise (o : stream) (s out : string) :
  encodable o s = false → print o s out = (out, Raise UnicodeEncodeError).
Proof. unfold print. by intros ->. Qed.

Lemma io_for_each_print {A : Type} (o : stream) (f : A → string)
  (items : list A) (out : string) :
  Forall (λ x, encodable o (f x) = true) items →
  io_for_each (λ x, print o (f x)) items out = (out +:+ unlines (f <$> items), Ok tt).
Proof.
  intros Hitems. revert out.
  induction Hitems as [|x items Hx _ IH]; intros out.
  - unfold io_ret. cbn [io_for_each fmap list_fmap unlines foldr].
    by rewrite string_app_nil_r.
  - cbn [io_for_each]. unfold io_bind at 1. rewrite (print_ok _ _ _ Hx), IH.
    cbn [fmap list_fmap unlines foldr]. by rewrite !string_app_assoc.
Qed.

(** The printing loop stops at the first text the stream refuses, with
    the texts before it written. *)
Lemma io_for_each_print_cases {A : Type} (o : stream) (f : A → string)
  (items : list A) (out : string) :
  (Forall (λ x, encodable o (f x) = true) items ∧
   io_for_each (λ x, print o (f x)) items out
   = (out +:+ unlines (f <$> items), Ok tt)) ∨
  (∃ before bad after,
     items = before ++ bad :: after ∧
     Forall (λ x, encodable o (f x) = true) before ∧
     encodable o (f bad) = false ∧
     io_for_each (λ x, print o (f x)) items out
     = (out +:+ unlines (f <$> before), Raise UnicodeEncodeError)).
Proof.
  revert out. induction items as [|x items IH]; intros out.
  { left. split; [constructor|]. by apply io_for_each_print. }
  destruct (encodable o (f x)) eqn:Hx.
  - destruct (IH (out +:+ f x +:+ newline))
      as [[Hall Hrun]|(before & bad & after & -> & Hbefore & Hbad & Hrun)].
    + left. split; [by constructor|]. apply io_for_each_print. by constructor.
    + right. exists (x :: before), bad, after. split_and!; [done|by constructor|done|].
      cbn [io_for_each]. unfold io_bind at 1. rewrite (print_ok _ _ _ Hx), Hrun.
      cbn [fmap list_fmap unlines foldr]. by rewrite !string_app_assoc.
  - right. exists [], x, items. split_and!; [done|constructor|done|].
    cbn [io_for_each]. unfold io_bind at 1. rewrite (print_raise _ _ _ Hx).
    cbn [fmap list_fmap unlines foldr]. by rewrite string_app_nil_r.
Qed.

(** ** The collector as a whole *)

(** The hash order has no effect on the result. *)
Lemma timezones_of_order (h1 h2 : hash_order) (stations : value) :
  timezones_of h1 stations = timezones_of h2 stations.
Proof.
  unfold timezones_of. destruct (py_iter stations) as [items|]; simpl; [|done].
  destruct (for_each collect [] items) as [s|] eqn:Hloop; simpl; [|done].
  apply collect_loop_set in Hloop as [Hset _];
    [|apply NoDup_nil_2|apply not_elem_of_nil].
  apply sorted_order_irrelevant.
  - by rewrite set_iter_perm.
  - by rewrite !set_iter_perm.
Qed.

(** The result is strictly ascending, whatever the input. *)
Lemma timezones_of_strict (h : hash_order) (stations : value) (l : list atom) :
  timezones_of h stations = Ok l → StronglySorted atom_lt l.
Proof.
  unfold timezones_of. destruct (py_iter stations) as [items|]; simpl; [|done].
  destruct (for_each collect [] items) as [s|] eqn:Hloop; simpl; [|done].
  apply collect_loop_set in Hloop as [Hset _];
    [|apply NoDup_nil_2|apply not_elem_of_nil].
  apply sorted_strict. by rewrite set_iter_perm.
Qed.

(** A returned sequence of texts, as a sequence of strings. *)
Lemma text_sequence (l : list atom) :
  StronglySorted atom_lt l → Forall (λ a, is_text a = true) l →
  ∃ ls, l = AStr <$> ls ∧ StronglySorted (strict String.le) ls.
Proof.
  induction 1 as [|a l _ IH Ha]; intros Htext.
  { exists []. split; [done|constructor]. }
  apply Forall_cons in Htext as [Hta Htext].
  destruct (IH Htext) as (ls & -> & Hls). destruct a as [| | |s]; try done.
  exists (s :: ls). split; [done|]. constructor; [done|].
  rewrite Forall_fmap in Ha. eapply Forall_impl; [exact Ha|].
  intros t Ht. apply string_ltb_strict. unfold atom_lt in Ht. simpl in Ht. congruence.
Qed.

Lemma strict_sorted_nodup (ls : list string) :
  StronglySorted (strict String.le) ls → NoDup ls ∧ StronglySorted String.le ls.
Proof.
  induction 1 as [|s ls _ [IH1 IH2] Hs]; [split; constructor|].
  split; constructor; try done.
  - intros Hin. rewrite Forall_forall in Hs. by destruct (Hs _ Hin) as [? []].
  - eapply Forall_impl; [exact Hs|]. by intros t [? _].
Qed.

Global Instance AStr_inj : Inj (=) (=) AStr.
Proof. by intros s t [= ->]. Qed.

Lemma norm_text (a : atom) (s : string) : norm a = AStr s → a = AStr s.
Proof. by destruct a. Qed.

Lemma norm_kind (a b : atom) :
  norm a = norm b → is_text a = is_text b ∧ is_number a = is_number b.
Proof. by destruct a, b. Qed.

Lemma valid_record_inv (station : value) :
  valid_record station = true →
  ∃ fields, station = Object fields ∧
    ∀ v, fields !! "timezone" = Some v → v = Atom ANone ∨ ∃ s, v = text s.
Proof.
  destruct station as [| |fields]; simpl; [done..|]. intros Hvalid.
  exists fields. split; [done|]. intros v Hv. rewrite Hv in Hvalid.
  destruct v as [[]| |]; try done; [by left|right; by eexists].
Qed.

Lemma valid_input_records (items : list value) :
  valid_input (Array items) = true →
  Forall (λ station, is_object station = true) items ∧
  (∀ v, timezone_in items v → v = Atom ANone ∨ ∃ s, v = text s).
Proof.
  simpl. rewrite forallb_forall. intros Hvalid. split.
  - apply Forall_forall. intros station Hin%list_elem_of_In%Hvalid.
    by apply valid_record_inv in Hin as (fields & -> & _).
  - intros v (fields & Hin%list_elem_of_In%Hvalid & Hv).
    apply valid_record_inv in Hin as (fields' & [= <-] & Hf). by apply Hf.
Qed.

(** The parts of a successful call. *)
Lemma timezones_of_inv (h : hash_order) (items : list value) (l : list atom) :
  timezones_of h (Array items) = Ok l →
  ∃ s, for_each collect [] items = Ok s ∧ sorted (set_iter h s) = Ok l ∧
       is_set s ∧ ANone ∉ s ∧ l ≡ₚ s.
Proof.
  unfold timezones_of. simpl.
  destruct (for_each collect [] items) as [s|] eqn:Hloop; simpl; [|done].
  intros Hsorted. exists s.
  destruct (collect_loop_set [] s items) as [Hset Hnone];
    [apply NoDup_nil_2|apply not_elem_of_nil|done|].
  split_and!; [done..|].
  by rewrite (sorted_perm _ _ Hsorted), set_iter_perm.
Qed.

(** The members of the result, whenever there is one. *)
Lemma timezones_of_members (h : hash_order) (items : list value) (l : list atom) :
  timezones_of h (Array items) = Ok l →
  (∀ a, a ∈ l → a ≠ ANone ∧ timezone_in items (Atom a)) ∧
  (∀ a, timezone_in items (Atom a) → a ≠ ANone → ∃ b, b ∈ l ∧ py_eq a b = true).
Proof.
  intros (s & Hloop & _ & _ & _ & Hperm)%timezones_of_inv. split.
  - intros a Ha. rewrite Hperm in Ha.
    by destruct (collect_loop_sound _ _ _ _ Hloop Ha) as [Hnil%elem_of_nil|?].
  - intros a Hin Ha. apply collect_loop_complete in Hloop as [_ Hall].
    pose proof (Hall a Hin Ha) as Hmem.
    apply list_elem_of_fmap in Hmem as (b & Hb & Hbs).
    exists b. split; [by rewrite Hperm|]. by apply py_eq_norm.
Qed.

Lemma strongly_sorted_related {A : Type} (R : relation A) (l : list A) (x y : A) :
  StronglySorted R l → x ∈ l → y ∈ l → x = y ∨ R x y ∨ R y x.
Proof.
  induction 1 as [|a l _ IH Ha]; [by intros Hnil%elem_of_nil|].
  rewrite Forall_forall in Ha.
  intros [->|Hx]%elem_of_cons [->|Hy]%elem_of_cons; auto.
Qed.

(** A result that holds a text holds only texts. *)
Lemma text_result (l : list atom) (s : string) :
  StronglySorted atom_lt l → AStr s ∈ l → Forall (λ a, is_text a = true) l.
Proof.
  intros Hsorted Hs. apply Forall_forall. intros a Ha.
  destruct (strongly_sorted_related _ _ _ _ Hsorted Hs Ha)
    as [<-|[Hlt%atom_lt_comparable|Hlt%atom_lt_comparable]]; [done|..];
    apply comparable_kind in Hlt; naive_solver.
Qed.

Lemma timezones_of_valid (h : hash_order) (items : list value) :
  valid_input (Array items) = true →
  ∃ ls, timezones_of h (Array items) = Ok (AStr <$> ls) ∧
        StronglySorted (strict String.le) ls ∧
        ∀ s, s ∈ ls ↔ timezone_in items (text s).
Proof.
  intros [Hobj Htext]%valid_input_records.
  destruct (collect_loop_ok [] items Hobj) as [s Hloop].
  { intros v [->|[t ->]]%Htext; done. }
  assert (Forall (λ a, is_text a = true) s) as Hs.
  { apply Forall_forall. intros a Ha.
    destruct (collect_loop_sound _ _ _ _ Hloop Ha) as [Hnil%elem_of_nil|[Hnone Hin]];
      [done|].
    by apply Htext in Hin as [[= ->]|[t [= ->]]]. }
  destruct (proj2 (sorted_ok_iff (set_iter h s))) as [l Hl].
  { right. intros x y Hx Hy. rewrite set_iter_perm in Hx, Hy.
    rewrite Forall_forall in Hs. apply comparable_kind. left. auto. }
  assert (timezones_of h (Array items) = Ok l) as Hresult.
  { unfold timezones_of. simpl. by rewrite Hloop. }
  destruct (text_sequence l) as (ls & -> & Hsorted).
  { by eapply timezones_of_strict. }
  { by rewrite (sorted_perm _ _ Hl), set_iter_perm. }
  exists ls. split_and!; [done..|].
  apply timezones_of_members in Hresult as [Hsound Hcomplete].
  intros t. split.
  - intros Ht. by apply Hsound, list_elem_of_fmap_2.
  - intros Ht. destruct (Hcomplete (AStr t) Ht) as (b & Hb & Heq); [done|].
    apply py_eq_norm in Heq. symmetry in Heq. apply norm_text in Heq as ->.
    by apply (list_elem_of_fmap_inj_2 AStr) in Hb.
Qed.

Lemma empty_string_least (ls : list string) :
  StronglySorted (strict String.le) ls → "" ∈ ls →
  ∃ rest, ls = "" :: rest ∧ Forall (λ s, s ≠ "") rest.
Proof.
  intros Hsorted Hin. destruct Hsorted as [|s rest Hrest Hs].
  { by apply elem_of_nil in Hin. }
  rewrite Forall_forall in Hs.
  apply elem_of_cons in Hin as [<-|Hin].
  - exists rest. split; [done|]. apply Forall_forall. intros t Ht ->.
    by destruct (Hs _ Ht) as [? []].
  - destruct (Hs _ Hin) as [_ []]. by destruct s.
Qed.

Lemma atom_kinds (a : atom) :
  a = ANone ∨ is_text a = true ∨ is_number a = true.
Proof. destruct a; auto. Qed.

Lemma text_not_number (a : atom) : is_text a = true → is_number a = true → False.
Proof. by destruct a. Qed.

(** A set without [None] is rejected by [sorted] exactly when it holds a
    text and a number. *)
Lemma sorted_set_raise (s : list atom) :
  ANone ∉ s →
  sorted s = Raise TypeError ↔
    ∃ a b, a ∈ s ∧ b ∈ s ∧ is_text a = true ∧ is_number b = true.
Proof.
  intros Hnone. split.
  - intros Hraise.
    assert (¬ uniform s) as Hnot.
    { intros [l Hl]%sorted_ok_iff. congruence. }
    assert (∀ a, a ∈ s → is_text a = true ∨ is_number a = true) as Hkinds.
    { intros a Ha. destruct (atom_kinds a) as [->|?]; done. }
    destruct (decide (Forall (λ a, is_text a = true) s)) as [Htext|Htext].
    { destruct Hnot. right. intros x y Hx Hy. rewrite Forall_forall in Htext.
      apply comparable_kind. left. auto. }
    destruct (decide (Forall (λ a, is_number a = true) s)) as [Hnum|Hnum].
    { destruct Hnot. right. intros x y Hx Hy. rewrite Forall_forall in Hnum.
      apply comparable_kind. right. auto. }
    apply not_Forall_Exists, Exists_exists in Htext as (b & Hb & Hbt); [|apply _].
    apply not_Forall_Exists, Exists_exists in Hnum as (a & Ha & Han); [|apply _].
    exists a, b. simpl in *.
    destruct (Hkinds a Ha), (Hkinds b Hb); done.
  - intros (a & b & Ha & Hb & Hat & Hbn). apply sorted_mixed.
    intros [Hlen|Hpair].
    + destruct s as [|x [|y s]]; [by apply elem_of_nil in Ha| |simpl in Hlen; lia].
      apply list_elem_of_singleton in Ha as ->, Hb as ->.
      by eapply text_not_number.
    + specialize (Hpair a b Ha Hb). apply comparable_kind in Hpair.
      destruct a, b; naive_solver.
Qed.

(** ** The program on its input file *)

Section Properties.

Variable json_loads : string → option value.

Lemma find_unique_timezones_loaded (h : hash_order) (fs : filesystem) (stations : value) :
  loaded json_loads fs stations →
  find_unique_timezones json_loads h fs = timezones_of h stations.
Proof.
  intros (contents & Hfile & Hjson).
  unfold find_unique_timezones, open_read, json_load. rewrite Hfile. simpl.
  by rewrite Hjson.
Qed.

Lemma run_ok (o : stream) (h : hash_order) (fs : filesystem) (l : list atom) :
  find_unique_timezones json_loads h fs = Ok l →
  Forall (λ a, encodable o (py_str a) = true) l →
  run json_loads o h fs
  = (unlines (("Found " +:+ pretty (length l) +:+ " unique timezones:")
              :: (py_str <$> l)), Ok tt).
Proof.
  intros Hl Henc. unfold run, main, io_bind, io_lift. rewrite Hl.
  rewrite print_ok by apply encodable_ascii, found_line_ascii.
  rewrite io_for_each_print by done. cbn [unlines foldr].
  by rewrite !string_app_assoc.
Qed.

Lemma run_raise (o : stream) (h : hash_order) (fs : filesystem) (e : exn) :
  find_unique_timezones json_loads h fs = Raise e →
  run json_loads o h fs = ("", Raise e).
Proof. intros He. unfold run, main, io_bind, io_lift. by rewrite He. Qed.

Lemma find_unique_timezones_order (h1 h2 : hash_order) (fs : filesystem) :
  find_unique_timezones json_loads h1 fs = find_unique_timezones json_loads h2 fs.
Proof.
  unfold find_unique_timezones. destruct (open_read fs "stations.json"); simpl; [|done].
  destruct (json_load json_loads a); simpl; [|done]. apply timezones_of_order.
Qed.

(** C1. For every valid input (a JSON array of objects whose present,
    non-null [timezone] values are texts) [find_unique_timezones] returns a
    sequence of texts that has no duplicates and is in ascending
    lexicographic order. *)
Theorem result_sorted_without_duplicates
  (h : hash_order) (fs : filesystem) (stations : value) :
  loaded json_loads fs stations →
  valid_input stations = true →
  ∃ ls : list string,
    find_unique_timezones json_loads h fs = Ok (AStr <$> ls) ∧
    NoDup ls ∧ StronglySorted String.le ls.
Proof.
  intros Hfile Hvalid. rewrite (find_unique_timezones_loaded _ _ _ Hfile).
  destruct stations as [|items|]; [done| |done].
  destruct (timezones_of_valid h items Hvalid) as (ls & Hls & Hsorted & _).
  exists ls. split; [done|]. by apply strict_sorted_nodup.
Qed.

(** C2. For every valid input the returned sequence holds exactly the
    non-null [timezone] values of the records: each member is the
    [timezone] of some record, and each non-null [timezone] of a record is
    a member. *)
Theorem result_is_the_timezones
  (h : hash_order) (fs : filesystem) (items : list value) :
  loaded json_loads fs (Array items) →
  valid_input (Array items) = true →
  ∃ l : list atom,
    find_unique_timezones json_loads h fs = Ok l ∧
    ∀ a, a ∈ l ↔ a ≠ ANone ∧ timezone_in items (Atom a).
Proof.
  intros Hfile Hvalid. rewrite (find_unique_timezones_loaded _ _ _ Hfile).
  destruct (timezones_of_valid h items Hvalid) as (ls & Hls & _ & Hmem).
  exists (AStr <$> ls). split; [done|]. intros a. split.
  - intros (s & -> & Hs)%list_elem_of_fmap. split; [done|]. by apply Hmem.
  - intros [Hnone Hin].
    apply valid_input_records in Hvalid as [_ Htext].
    destruct (Htext _ Hin) as [[= ->]|[s [= ->]]]; [done|].
    by apply list_elem_of_fmap_2, Hmem.
Qed.

(** C3. A record without the [timezone] key, or with a null [timezone],
    contributes nothing: the input without that record gives the same
    result. *)
Theorem skipped_record_contributes_nothing
  (h1 h2 : hash_order) (fs1 fs2 : filesystem)
  (before after : list value) (fields : gmap string value) :
  fields !! "timezone" = None ∨ fields !! "timezone" = Some (Atom ANone) →
  loaded json_loads fs1 (Array (before ++ Object fields :: after)) →
  loaded json_loads fs2 (Array (before ++ after)) →
  find_unique_timezones json_loads h1 fs1 = find_unique_timezones json_loads h2 fs2.
Proof.
  intros Hskip Hfile1 Hfile2.
  rewrite (find_unique_timezones_loaded _ _ _ Hfile1),
    (find_unique_timezones_loaded _ _ _ Hfile2), (timezones_of_order h1 h2).
  unfold timezones_of. cbn [py_iter bind]. rewrite !for_each_app.
  destruct (for_each collect [] before) as [s|]; cbn [bind for_each]; [|done].
  by rewrite (collect_skip s fields Hskip).
Qed.


(** C6, as the code has it. On a valid input whose returned values the
    output stream can encode, the program prints the line
    [Found N unique timezones:], [N] the length of the returned sequence,
    and then the returned values in the returned (ascending) order, each
    followed by a line end; where no returned value has a line end in it,
    the output is exactly that line and [N] further lines, one a value. *)
Theorem program_output
  (o : stream) (h : hash_order) (fs : filesystem) (stations : value) :
  loaded json_loads fs stations →
  valid_input stations = true →
  ∃ ls : list string,
    find_unique_timezones json_loads h fs = Ok (AStr <$> ls) ∧
    StronglySorted String.le ls ∧
    (Forall (λ s, encodable o s = true) ls →
     run json_loads o h fs
     = (unlines (("Found " +:+ pretty (length ls) +:+ " unique timezones:") :: ls),
        Ok tt) ∧
     (Forall (λ s, no_newline s = true) ls →
      lines (run json_loads o h fs).1
      = ("Found " +:+ pretty (length ls) +:+ " unique timezones:") :: ls)).
Proof.
  intros Hfile Hvalid.
  pose proof (find_unique_timezones_loaded h _ _ Hfile) as Hcall.
  destruct stations as [|items|]; [done| |done].
  destruct (timezones_of_valid h items Hvalid) as (ls & Hls & Hsorted & _).
  rewrite <-Hcall in Hls. apply strict_sorted_nodup in Hsorted as [_ Hsorted].
  exists ls. split_and!; [done..|]. intros Henc.
  assert (run json_loads o h fs
          = (unlines (("Found " +:+ pretty (length ls) +:+ " unique timezones:")
                      :: ls), Ok tt)) as Hrun.
  { rewrite (run_ok o _ _ _ Hls) by by rewrite Forall_fmap.
    rewrite length_fmap, <-list_fmap_compose.
    do 3 f_equal. by rewrite <-(list_fmap_id ls) at 2. }
  split; [done|]. intros Hlines. rewrite Hrun. cbn [fst].
  apply lines_unlines. constructor; [apply found_line_no_newline|done].
Qed.

(** C7, as the code has it. On a file whose JSON numbers are integers, so
    without [NaN], the result and the printed output depend on the
    contents of the file only: two runs on the same files and the same
    output stream agree, whatever order their sets are iterated in. *)
Theorem deterministic (o : stream) (h1 h2 : hash_order) (fs : filesystem) :
  find_unique_timezones json_loads h1 fs = find_unique_timezones json_loads h2 fs ∧
  run json_loads o h1 fs = run json_loads o h2 fs.
Proof.
  split; [apply find_unique_timezones_order|].
  unfold run, main. by rewrite (find_unique_timezones_order h1 h2).
Qed.

(** C8. On the input of scenario 1 the result is
    [America/New_York], [UTC] and the program prints
    [Found 2 unique timezones:] and these two lines. *)
Theorem scenario1_output (o : stream) (h : hash_order) (fs : filesystem) :
  loaded json_loads fs scenario1 →
  find_unique_timezones json_loads h fs = Ok [AStr "America/New_York"; AStr "UTC"] ∧
  run json_loads o h fs
  = ("Found 2 unique timezones:" +:+ newline +:+
     "America/New_York" +:+ newline +:+
     "UTC" +:+ newline, Ok tt).
Proof.
  intros Hfile.
  assert (find_unique_timezones json_loads h fs
          = Ok [AStr "America/New_York"; AStr "UTC"]) as Hresult.
  { rewrite (find_unique_timezones_loaded _ _ _ Hfile),
      (timezones_of_order h insertion_order). by vm_compute. }
  split; [done|]. rewrite (run_ok o _ _ _ Hresult); [done|].
  repeat constructor; by apply encodable_ascii.
Qed.

(** C10. Where a record has the empty text as its [timezone], the empty
    text is in the returned sequence (the test is against [None] only),
    and it comes before every other, non-empty, text. *)
Theorem empty_string_sorts_first
  (h : hash_order) (fs : filesystem) (items : list value) :
  loaded json_loads fs (Array items) →
  timezone_in items (text "") →
  (valid_input (Array items) = true →
   ∃ l, find_unique_timezones json_loads h fs = Ok l) ∧
  (∀ l, find_unique_timezones json_loads h fs = Ok l →
   ∃ rest, l = AStr <$> "" :: rest ∧ Forall (λ s, s ≠ "") rest).
Proof.
  intros Hfile Hin. rewrite (find_unique_timezones_loaded _ _ _ Hfile). split.
  - intros Hvalid.
    destruct (timezones_of_valid h items Hvalid) as (ls & Hls & _). by eexists.
  - intros l Hl.
    pose proof (timezones_of_strict _ _ _ Hl) as Hsorted.
    apply timezones_of_members in Hl as [_ Hcomplete].
    destruct (Hcomplete (AStr "") Hin) as (b & Hb & Heq); [done|].
    apply py_eq_norm in Heq. symmetry in Heq. apply norm_text in Heq as ->.
    destruct (text_sequence l Hsorted) as (ls & -> & Hls).
    { by eapply text_result. }
    apply (list_elem_of_fmap_inj_2 AStr) in Hb.
    destruct (empty_string_least ls Hls Hb) as (rest & -> & Hrest). by exists rest.
Qed.

(** C5, as the code has it. On an input that is an array of objects,
    [find_unique_timezones] fails with a type error exactly when the
    [timezone] of some record is a list or a dictionary, or the [timezone]
    values hold both a text and a number or boolean; it fails in no other
    way; the error is not recovered, the program prints nothing. *)
Theorem type_error_cases (o : stream) (h : hash_order) (fs : filesystem) (items : list value) :
  loaded json_loads fs (Array items) →
  Forall (λ station, is_object station = true) items →
  (find_unique_timezones json_loads h fs = Raise TypeError ↔
     (∃ v, timezone_in items v ∧ is_container v = true) ∨
     (∃ a b, timezone_in items (Atom a) ∧ timezone_in items (Atom b) ∧
             is_text a = true ∧ is_number b = true)) ∧
  ((∃ l, find_unique_timezones json_loads h fs = Ok l) ∨
   find_unique_timezones json_loads h fs = Raise TypeError) ∧
  (find_unique_timezones json_loads h fs = Raise TypeError →
   run json_loads o h fs = ("", Raise TypeError)).
Proof.
  intros Hfile Hobj. split; [|split; [|apply run_raise]];
    rewrite (find_unique_timezones_loaded _ _ _ Hfile);
    unfold timezones_of; cbn [py_iter bind];
    (destruct (for_each collect [] items) as [s|e] eqn:Hloop; cbn [bind]);
    [| |destruct (sorted (set_iter h s)) as [l|e] eqn:Hsorted;
        [left; by exists l|right; by apply sorted_raise in Hsorted as ->]
     |right; by apply collect_loop_raise in Hloop as [-> _]].
  - destruct (collect_loop_set [] s items) as [_ Hnone];
      [apply NoDup_nil_2|apply not_elem_of_nil|done|].
    assert (ANone ∉ set_iter h s) as Hnone' by by rewrite set_iter_perm.
    rewrite (sorted_set_raise _ Hnone'). split.
    + intros (a & b & Ha & Hb & Hat & Hbn). right. exists a, b.
      rewrite set_iter_perm in Ha, Hb.
      destruct (collect_loop_sound _ _ _ _ Hloop Ha) as [Hnil%elem_of_nil|[_ ?]];
        [done|].
      destruct (collect_loop_sound _ _ _ _ Hloop Hb) as [Hnil%elem_of_nil|[_ ?]];
        done.
    + intros [(v & Hv & Hc)|(a & b & Ha & Hb & Hat & Hbn)].
      { by rewrite (collect_loop_unhashable [] items v) in Hloop. }
      apply collect_loop_complete in Hloop as [_ Hall].
      pose proof (Hall a Ha) as Ha'. pose proof (Hall b Hb) as Hb'.
      rewrite list_elem_of_fmap in Ha', Hb'.
      destruct Ha' as (a' & Heqa & Ha'); [by destruct a|].
      destruct Hb' as (b' & Heqb & Hb'); [by destruct b|].
      apply norm_kind in Heqa as [Heqa _], Heqb as [_ Heqb].
      exists a', b'. rewrite !set_iter_perm. split_and!; [done..|congruence|congruence].
  - apply collect_loop_raise in Hloop as (-> & v & Hv & Hc); [|done].
    split; [|done]. intros _. left. by exists v.
Qed.


End Properties.

(** ** The properties at concrete inputs *)

Lemma result_sorted_without_duplicates_witness :
  loaded sample_loads (stations_file scenario1_text) scenario1 ∧
  valid_input scenario1 = true ∧
  ∃ ls : list string,
    find_unique_timezones sample_loads reverse_order (stations_file scenario1_text)
    = Ok (AStr <$> ls) ∧
    NoDup ls ∧ StronglySorted String.le ls.
Proof.
  assert (loaded sample_loads (stations_file scenario1_text) scenario1) as Hfile.
  { exists scenario1_text. split; reflexivity. }
  assert (valid_input scenario1 = true) as Hvalid by reflexivity.
  split_and!; [done..|].
  exact (result_sorted_without_duplicates sample_loads reverse_order
           (stations_file scenario1_text) scenario1 Hfile Hvalid).
Defined.

Lemma result_is_the_timezones_witness :
  loaded sample_loads (stations_file scenario1_text) scenario1 ∧
  valid_input scenario1 = true ∧
  ∃ l : list atom,
    find_unique_timezones sample_loads reverse_order (stations_file scenario1_text)
    = Ok l ∧
    ∀ a, a ∈ l ↔
      a ≠ ANone ∧
      timezone_in
        [record (text "UTC"); record (text "UTC"); record (text "America/New_York")]
        (Atom a).
Proof.
  assert (loaded sample_loads (stations_file scenario1_text) scenario1) as Hfile.
  { exists scenario1_text. split; reflexivity. }
  assert (valid_input scenario1 = true) as Hvalid by reflexivity.
  split_and!; [done..|].
  exact (result_is_the_timezones sample_loads reverse_order
           (stations_file scenario1_text) _ Hfile Hvalid).
Defined.

Lemma skipped_record_contributes_nothing_witness :
  ({["timezone" := Atom ANone]} : gmap string value) !! "timezone"
  = Some (Atom ANone) ∧
  loaded sample_loads (stations_file scenario2_text) scenario2 ∧
  loaded sample_loads (stations_file scenario2_rest_text)
    (Array [Object {["name" := text "A"]}]) ∧
  find_unique_timezones sample_loads insertion_order (stations_file scenario2_text)
  = find_unique_timezones sample_loads reverse_order
      (stations_file scenario2_rest_text).
Proof.
  assert (({["timezone" := Atom ANone]} : gmap string value) !! "timezone"
          = Some (Atom ANone)) as Hnull by reflexivity.
  assert (loaded sample_loads (stations_file scenario2_text) scenario2) as Hfile1.
  { exists scenario2_text. split; reflexivity. }
  assert (loaded sample_loads (stations_file scenario2_rest_text)
            (Array [Object {["name" := text "A"]}])) as Hfile2.
  { exists scenario2_rest_text. split; reflexivity. }
  split_and!; [done..|].
  exact (skipped_record_contributes_nothing sample_loads
           insertion_order reverse_order _ _
           [Object {["name" := text "A"]}] [] {["timezone" := Atom ANone]}
           (or_intror Hnull) Hfile1 Hfile2).
Defined.


(** C6 as it is stated fails: a valid input with one timezone that has a
    line end in it gives [N = 1] and two further lines. *)
Lemma newline_in_timezone_splits_line :
  loaded sample_loads (stations_file two_line_text) two_line_input ∧
  valid_input two_line_input = true ∧
  find_unique_timezones sample_loads insertion_order (stations_file two_line_text)
  = Ok [AStr ("a" +:+ newline +:+ "b")] ∧
  run sample_loads ascii_stream insertion_order (stations_file two_line_text)
  = ("Found 1 unique timezones:" +:+ newline +:+ "a" +:+ newline +:+ "b"
     +:+ newline, Ok tt) ∧
  lines (run sample_loads ascii_stream insertion_order
           (stations_file two_line_text)).1
  = ["Found 1 unique timezones:"; "a"; "b"].
Proof.
  split_and!.
  - exists two_line_text. split; reflexivity.
  - reflexivity.
  - reflexivity.
  - reflexivity.
  - reflexivity.
Qed.

Lemma program_output_witness :
  loaded sample_loads (stations_file scenario1_text) scenario1 ∧
  valid_input scenario1 = true ∧
  ∃ ls : list string,
    find_unique_timezones sample_loads reverse_order (stations_file scenario1_text)
    = Ok (AStr <$> ls) ∧
    StronglySorted String.le ls ∧
    (Forall (λ s, encodable ascii_stream s = true) ls →
     run sample_loads ascii_stream reverse_order (stations_file scenario1_text)
     = (unlines (("Found " +:+ pretty (length ls) +:+ " unique timezones:") :: ls),
        Ok tt) ∧
     (Forall (λ s, no_newline s = true) ls →
      lines (run sample_loads ascii_stream reverse_order
               (stations_file scenario1_text)).1
      = ("Found " +:+ pretty (length ls) +:+ " unique timezones:") :: ls)).
Proof.
  assert (loaded sample_loads (stations_file scenario1_text) scenario1) as Hfile.
  { exists scenario1_text. split; reflexivity. }
  assert (valid_input scenario1 = true) as Hvalid by reflexivity.
  split_and!; [done..|].
  exact (program_output sample_loads ascii_stream reverse_order
           (stations_file scenario1_text) scenario1 Hfile Hvalid).
Defined.

Lemma scenario1_output_witness :
  loaded sample_loads (stations_file scenario1_text) scenario1 ∧
  find_unique_timezones sample_loads reverse_order (stations_file scenario1_text)
  = Ok [AStr "America/New_York"; AStr "UTC"] ∧
  run sample_loads ascii_stream reverse_order (stations_file scenario1_text)
  = ("Found 2 unique timezones:" +:+ newline +:+
     "America/New_York" +:+ newline +:+
     "UTC" +:+ newline, Ok tt).
Proof.
  assert (loaded sample_loads (stations_file scenario1_text) scenario1) as Hfile.
  { exists scenario1_text. split; reflexivity. }
  split; [done|].
  exact (scenario1_output sample_loads ascii_stream reverse_order
           (stations_file scenario1_text) Hfile).
Defined.

Lemma empty_string_sorts_first_witness :
  loaded sample_loads (stations_file empty_text)
    (Array [record (text ""); record (text "UTC")]) ∧
  timezone_in [record (text ""); record (text "UTC")] (text "") ∧
  (valid_input (Array [record (text ""); record (text "UTC")]) = true →
   ∃ l, find_unique_timezones sample_loads reverse_order (stations_file empty_text)
        = Ok l) ∧
  (∀ l, find_unique_timezones sample_loads reverse_order (stations_file empty_text)
        = Ok l →
   ∃ rest, l = AStr <$> "" :: rest ∧ Forall (λ s, s ≠ "") rest).
Proof.
  assert (loaded sample_loads (stations_file empty_text)
            (Array [record (text ""); record (text "UTC")])) as Hfile.
  { exists empty_text. split; reflexivity. }
  assert (timezone_in [record (text ""); record (text "UTC")] (text "")) as Hin.
  { exists {["timezone" := text ""]}. split; [apply list_elem_of_here|reflexivity]. }
  split; [done|]. split; [done|].
  exact (empty_string_sorts_first sample_loads reverse_order
           (stations_file empty_text) _ Hfile Hin).
Defined.

(** C5 as it is stated fails: a number as the only [timezone] is returned,
    no type error is raised. *)
Lemma number_timezone_no_type_error :
  loaded sample_loads (stations_file number_text) (Array [record (Atom (AInt 5))]) ∧
  timezone_in [record (Atom (AInt 5))] (Atom (AInt 5)) ∧
  find_unique_timezones sample_loads insertion_order (stations_file number_text)
  = Ok [AInt 5] ∧
  find_unique_timezones sample_loads insertion_order (stations_file number_text)
  ≠ Raise TypeError ∧
  run sample_loads ascii_stream insertion_order (stations_file number_text)
  = ("Found 1 unique timezones:" +:+ newline +:+ "5" +:+ newline, Ok tt).
Proof.
  split_and!.
  - exists number_text. split; reflexivity.
  - exists {["timezone" := Atom (AInt 5)]}.
    split; [apply list_elem_of_here|reflexivity].
  - reflexivity.
  - discriminate.
  - reflexivity.
Qed.

Lemma type_error_cases_witness :
  loaded sample_loads (stations_file mixed_text)
    (Array [record (Atom (AInt 5)); record (text "UTC")]) ∧
  Forall (λ station, is_object station = true)
    [record (Atom (AInt 5)); record (text "UTC")] ∧
  (find_unique_timezones sample_loads reverse_order (stations_file mixed_text)
   = Raise TypeError ↔
     (∃ v, timezone_in [record (Atom (AInt 5)); record (text "UTC")] v ∧
           is_container v = true) ∨
     (∃ a b,
        timezone_in [record (Atom (AInt 5)); record (text "UTC")] (Atom a) ∧
        timezone_in [record (Atom (AInt 5)); record (text "UTC")] (Atom b) ∧
        is_text a = true ∧ is_number b = true)) ∧
  ((∃ l, find_unique_timezones sample_loads reverse_order (stations_file mixed_text)
         = Ok l) ∨
   find_unique_timezones sample_loads reverse_order (stations_file mixed_text)
   = Raise TypeError) ∧
  (find_unique_timezones sample_loads reverse_order (stations_file mixed_text)
   = Raise TypeError →
   run sample_loads ascii_stream reverse_order (stations_file mixed_text) = ("", Raise TypeError)).
Proof.
  assert (loaded sample_loads (stations_file mixed_text)
            (Array [record (Atom (AInt 5)); record (text "UTC")])) as Hfile.
  { exists mixed_text. split; reflexivity. }
  assert (Forall (λ station, is_object station = true)
            [record (Atom (AInt 5)); record (text "UTC")]) as Hobj.
  { repeat constructor. }
  split; [done|]. split; [done|].
  exact (type_error_cases sample_loads ascii_stream reverse_order
           (stations_file mixed_text) _ Hfile Hobj).
Defined.



(** ** Beyond the stated properties: errors, edges and invariants *)

Lemma passes_inv (station : value) :
  passes station = true →
  ∃ fields, station = Object fields ∧
    ∀ v, fields !! "timezone" = Some v → is_container v = false.
Proof.
  destruct station as [| |fields]; simpl; [done..|]. intros Hpass.
  exists fields. split; [done|]. intros v Hv. rewrite Hv in Hpass.
  by destruct v.
Qed.

Lemma passes_loop_ok (s : list atom) (items : list value) :
  Forall (λ station, passes station = true) items →
  ∃ s', for_each collect s items = Ok s'.
Proof.
  intros Hpass. apply collect_loop_ok.
  - eapply Forall_impl; [exact Hpass|]. intros station Hs.
    by apply passes_inv in Hs as (fields & -> & _).
  - intros v (fields & Hin & Hv). rewrite Forall_forall in Hpass.
    apply Hpass, passes_inv in Hin as (fields' & [= <-] & Hf). by apply Hf.
Qed.

(** The loop adds at most one member a record. *)
Lemma collect_loop_length (s s' : list atom) (items : list value) :
  for_each collect s items = Ok s' → length s' ≤ length s + length items.
Proof.
  revert s. induction items as [|station items IH]; intros s; simpl.
  { intros [= <-]. lia. }
  destruct (collect_cases s station)
    as [[_ ->]|(fields & -> & [[_ ->]|[(a & _ & _ & ->)|(v & _ & _ & ->)]])];
    simpl; try done.
  - intros ?%IH. lia.
  - intros Hloop%IH. destruct (existsb (py_eq a) s); [lia|].
    rewrite length_app in Hloop. simpl in Hloop. lia.
Qed.


Global Instance timezone_in_perm : Proper ((≡ₚ) ==> (=) ==> iff) timezone_in.
Proof.
  intros items1 items2 Hperm v ? <-. unfold timezone_in.
  by setoid_rewrite Hperm.
Qed.

Lemma timezone_texts_spec (items : list value) (s : string) :
  s ∈ timezone_texts items ↔ timezone_in items (text s).
Proof.
  unfold timezone_texts, timezone_in. rewrite list_elem_of_omap. split.
  - intros (station & Hin & Hs). destruct station as [| |fields]; [done..|].
    exists fields. split; [done|]. simpl in Hs.
    by destruct (fields !! "timezone") as [[[]| |]|]; simplify_eq.
  - intros (fields & Hin & Hf). exists (Object fields). split; [done|].
    simpl. by rewrite Hf.
Qed.

(** The parts of a successful call, whatever the decoded value. *)
Lemma timezones_of_set (h : hash_order) (stations : value) (l : list atom) :
  timezones_of h stations = Ok l →
  ∃ s, is_set s ∧ (ANone ∉ s) ∧ l ≡ₚ s.
Proof.
  unfold timezones_of. destruct (py_iter stations) as [items|]; simpl; [|done].
  destruct (for_each collect [] items) as [s|] eqn:Hloop; simpl; [|done].
  intros Hsorted. exists s.
  destruct (collect_loop_set [] s items) as [Hset Hnone];
    [apply NoDup_nil_2|apply not_elem_of_nil|done|].
  split_and!; [done..|]. by rewrite (sorted_perm _ _ Hsorted), set_iter_perm.
Qed.

Lemma int_sequence (l : list atom) :
  StronglySorted atom_lt l → Forall (λ a, ∃ n, a = AInt n) l →
  ∃ zs, l = AInt <$> zs ∧ StronglySorted Z.lt zs.
Proof.
  induction 1 as [|a l _ IH Ha]; intros Hint.
  { exists []. split; [done|constructor]. }
  apply Forall_cons in Hint as [[n ->] Hint].
  destruct (IH Hint) as (zs & -> & Hzs).
  exists (n :: zs). split; [done|]. constructor; [done|].
  rewrite Forall_fmap in Ha. eapply Forall_impl; [exact Ha|].
  intros m Hm. apply Z.ltb_lt. unfold atom_lt in Hm. cbn [py_lt as_int] in Hm.
  by apply Ok_inj in Hm.
Qed.

Section Extras.

Variable json_loads : string → option value.

(** X1. How far the output has come when a run ends in an exception: an
    exception of [find_unique_timezones] comes before anything is printed;
    the only other one is the encoding error of [print], at the first
    returned value the output stream cannot encode, after the count line
    and the values before it. *)
Theorem output_at_failure
  (o : stream) (h : hash_order) (fs : filesystem) (out : string) (e : exn) :
  run json_loads o h fs = (out, Raise e) →
  (find_unique_timezones json_loads h fs = Raise e ∧ out = "") ∨
  (e = UnicodeEncodeError ∧
   ∃ before bad after,
     find_unique_timezones json_loads h fs = Ok (before ++ bad :: after) ∧
     Forall (λ a, encodable o (py_str a) = true) before ∧
     encodable o (py_str bad) = false ∧
     out = unlines (("Found " +:+ pretty (length (before ++ bad :: after))
                     +:+ " unique timezones:") :: (py_str <$> before))).
Proof.
  destruct (find_unique_timezones json_loads h fs) as [l|e'] eqn:Hcall.
  - unfold run, main, io_bind, io_lift. rewrite Hcall.
    rewrite print_ok by apply encodable_ascii, found_line_ascii.
    destruct (io_for_each_print_cases o py_str l
                ("" +:+ ("Found " +:+ pretty (length l) +:+ " unique timezones:")
                 +:+ newline))
      as [[_ ->]|(before & bad & after & -> & Hbefore & Hbad & ->)]; [done|].
    intros [= <- <-]. right. split; [done|]. exists before, bad, after.
    split_and!; [done..|]. cbn [unlines foldr]. by rewrite !string_app_assoc.
  - rewrite (run_raise _ _ _ _ _ Hcall). intros [= <- <-]. by left.
Qed.

(** X2. The first record the loop cannot take decides the exception, and
    the records after it are not looked at: after records that pass (also
    when they mix texts and numbers, which [sorted] would refuse), a record
    that is not an object gives an attribute error, and an object whose
    [timezone] is a list or a dictionary gives a type error.  Nothing is
    printed. *)
Theorem first_bad_record_decides
  (o : stream) (h : hash_order) (fs : filesystem) (before after : list value) (bad : value) :
  loaded json_loads fs (Array (before ++ bad :: after)) →
  Forall (λ station, passes station = true) before →
  (is_object bad = false →
   find_unique_timezones json_loads h fs = Raise AttributeError ∧
   run json_loads o h fs = ("", Raise AttributeError)) ∧
  (∀ fields v,
     bad = Object fields → fields !! "timezone" = Some v → is_container v = true →
     find_unique_timezones json_loads h fs = Raise TypeError ∧
     run json_loads o h fs = ("", Raise TypeError)).
Proof.
  intros Hfile Hbefore.
  destruct (passes_loop_ok [] before Hbefore) as [s Hloop].
  assert (∀ e, collect s bad = Raise e →
               find_unique_timezones json_loads h fs = Raise e) as Hraise.
  { intros e He. rewrite (find_unique_timezones_loaded _ _ _ _ Hfile).
    unfold timezones_of. cbn [py_iter bind]. rewrite for_each_app, Hloop.
    cbn [bind for_each]. by rewrite He. }
  split.
  - intros Hbad. pose proof (Hraise _ (collect_not_object s bad Hbad)) as Hcall.
    split; [done|]. by apply run_raise.
  - intros fields v -> Hv Hc.
    pose proof (Hraise _ (collect_container s fields v Hv Hc)) as Hcall.
    split; [done|]. by apply run_raise.
Qed.

(** X3. A decoded value that is not an array: [None], a boolean and a
    number are not iterable, a type error; a text yields its characters
    and an object its keys, which have no [get], an attribute error; but
    the empty text and the empty object are taken as no records at all and
    give the empty result. *)
Theorem top_level_not_an_array (o : stream) (h : hash_order) (fs : filesystem) (stations : value) :
  loaded json_loads fs stations →
  (∀ a, stations = Atom a → is_text a = false →
        find_unique_timezones json_loads h fs = Raise TypeError) ∧
  (∀ s, stations = text s → s ≠ "" →
        find_unique_timezones json_loads h fs = Raise AttributeError) ∧
  (∀ fields, stations = Object fields → fields ≠ ∅ →
        find_unique_timezones json_loads h fs = Raise AttributeError) ∧
  (stations = text "" ∨ stations = Object ∅ →
        find_unique_timezones json_loads h fs = Ok [] ∧
        run json_loads o h fs = ("Found 0 unique timezones:" +:+ newline, Ok tt)).
Proof.
  intros Hfile. rewrite (find_unique_timezones_loaded _ _ _ _ Hfile).
  split_and!.
  - intros a -> Ha. by destruct a.
  - intros s -> Hs. destruct s as [|c s]; done.
  - intros fields -> Hfields. unfold timezones_of. cbn [py_iter bind].
    destruct (map_to_list fields) as [|[k v] rest] eqn:Hlist.
    { by apply map_to_list_empty_iff in Hlist. }
    done.
  - intros Hempty.
    assert (timezones_of h stations = Ok []) as Hcall.
    { rewrite (timezones_of_order h insertion_order).
      destruct Hempty as [-> | ->]; [done|].
      unfold timezones_of. cbn [py_iter bind]. by rewrite map_to_list_empty. }
    split; [done|].
    rewrite <-(find_unique_timezones_loaded _ _ _ _ Hfile) in Hcall.
    rewrite (run_ok _ o _ _ _ Hcall); [done|constructor].
Qed.

(** X4. On an array of objects the result is empty exactly when no record
    has a [timezone] other than null; the program then prints the line
    [Found 0 unique timezones:] and no other. *)
Theorem empty_result (o : stream) (h : hash_order) (fs : filesystem) (items : list value) :
  loaded json_loads fs (Array items) →
  Forall (λ station, is_object station = true) items →
  (find_unique_timezones json_loads h fs = Ok [] ↔
     ∀ v, timezone_in items v → v = Atom ANone) ∧
  (find_unique_timezones json_loads h fs = Ok [] →
   run json_loads o h fs = ("Found 0 unique timezones:" +:+ newline, Ok tt)).
Proof.
  intros Hfile Hobj.
  split; [|intros Hcall; rewrite (run_ok _ o _ _ _ Hcall); [done|constructor]].
  rewrite (find_unique_timezones_loaded _ _ _ _ Hfile). split.
  - intros Hcall v Hv. destruct v as [a| |].
    + destruct a; try done;
        apply timezones_of_members in Hcall as [_ Hcomplete];
        by destruct (Hcomplete _ Hv) as (c & Hnil%elem_of_nil & _).
    + unfold timezones_of in Hcall. cbn [py_iter bind] in Hcall.
      by rewrite (collect_loop_unhashable [] items _ Hobj Hv) in Hcall.
    + unfold timezones_of in Hcall. cbn [py_iter bind] in Hcall.
      by rewrite (collect_loop_unhashable [] items _ Hobj Hv) in Hcall.
  - intros Hnull. destruct (collect_loop_ok [] items Hobj) as [s Hloop].
    { by intros v ->%Hnull. }
    assert (s = []) as ->.
    { destruct s as [|a s]; [done|].
      destruct (collect_loop_sound _ _ _ a Hloop) as [Hnil%elem_of_nil|[Hnone Hin]];
        [by left|done|].
      apply Hnull in Hin. congruence. }
    unfold timezones_of. cbn [py_iter bind]. rewrite Hloop. cbn [bind].
    pose proof (set_iter_perm h []) as Hperm. apply Permutation_nil_r in Hperm.
    by rewrite Hperm.
Qed.

(** X5. On a valid input the order of the records has no effect: two
    inputs with the same records in any order give the same result. *)
Theorem record_order_irrelevant
  (h1 h2 : hash_order) (fs1 fs2 : filesystem) (items1 items2 : list value) :
  loaded json_loads fs1 (Array items1) →
  loaded json_loads fs2 (Array items2) →
  items1 ≡ₚ items2 →
  valid_input (Array items1) = true →
  find_unique_timezones json_loads h1 fs1 = find_unique_timezones json_loads h2 fs2.
Proof.
  intros Hfile1 Hfile2 Hperm Hvalid1.
  assert (valid_input (Array items2) = true) as Hvalid2.
  { simpl in *. rewrite forallb_forall in *. intros x Hx. apply Hvalid1.
    apply list_elem_of_In. rewrite Hperm. by apply list_elem_of_In. }
  rewrite (find_unique_timezones_loaded _ _ _ _ Hfile1),
    (find_unique_timezones_loaded _ _ _ _ Hfile2).
  destruct (timezones_of_valid h1 items1 Hvalid1) as (ls1 & -> & Hs1 & Hm1).
  destruct (timezones_of_valid h2 items2 Hvalid2) as (ls2 & -> & Hs2 & Hm2).
  do 2 f_equal.
  apply (StronglySorted_unique_strong (strict String.le)); [|done..|].
  - intros x y _ _ [Hxy _] [Hyx _]. by apply (anti_symm String.le).
  - apply strict_sorted_nodup in Hs1 as [Hnd1 _], Hs2 as [Hnd2 _].
    apply NoDup_Permutation; [done..|].
    intros s. by rewrite Hm1, Hm2, Hperm.
Qed.

(** X6. The result has at most one value a record: its length, the count
    the program prints, is at most the number of records. *)
Theorem at_most_one_value_per_record
  (h : hash_order) (fs : filesystem) (items : list value) (l : list atom) :
  loaded json_loads fs (Array items) →
  find_unique_timezones json_loads h fs = Ok l →
  length l ≤ length items.
Proof.
  intros Hfile. rewrite (find_unique_timezones_loaded _ _ _ _ Hfile).
  intros (s & Hloop & _ & _ & _ & Hperm)%timezones_of_inv.
  rewrite Hperm. by apply collect_loop_length in Hloop.
Qed.


(** X8. Where the [timezone] values are integers they are sorted by their
    value, not as texts: on an array of objects whose [timezone] values
    are null or integers the result is the integers that occur, each once,
    in strictly ascending numeric order. *)
Theorem integers_sorted_by_value
  (h : hash_order) (fs : filesystem) (items : list value) :
  loaded json_loads fs (Array items) →
  Forall (λ station, is_object station = true) items →
  (∀ v, timezone_in items v → v = Atom ANone ∨ ∃ n, v = Atom (AInt n)) →
  ∃ zs : list Z,
    find_unique_timezones json_loads h fs = Ok (AInt <$> zs) ∧
    StronglySorted Z.lt zs ∧
    ∀ n, n ∈ zs ↔ timezone_in items (Atom (AInt n)).
Proof.
  intros Hfile Hobj Hint. rewrite (find_unique_timezones_loaded _ _ _ _ Hfile).
  destruct (collect_loop_ok [] items Hobj) as [s Hloop].
  { intros v [->|[n ->]]%Hint; done. }
  assert (Forall (λ a, ∃ n, a = AInt n) s) as Hs.
  { apply Forall_forall. intros a Ha.
    destruct (collect_loop_sound _ _ _ _ Hloop Ha) as [Hnil%elem_of_nil|[Hnone Hin]];
      [done|].
    apply Hint in Hin as [[= ->]|[n [= ->]]]; [done|by exists n]. }
  destruct (proj2 (sorted_ok_iff (set_iter h s))) as [l Hl].
  { right. intros x y Hx Hy. rewrite set_iter_perm in Hx, Hy.
    rewrite Forall_forall in Hs.
    by destruct (Hs _ Hx) as [m ->], (Hs _ Hy) as [n ->]. }
  assert (timezones_of h (Array items) = Ok l) as Hresult.
  { unfold timezones_of. cbn [py_iter bind]. by rewrite Hloop. }
  destruct (int_sequence l) as (zs & -> & Hsorted).
  { by eapply timezones_of_strict. }
  { by rewrite (sorted_perm _ _ Hl), set_iter_perm. }
  exists zs. split_and!; [done..|].
  apply timezones_of_members in Hresult as [Hsound Hcomplete].
  intros n. split.
  - intros Hn. by apply Hsound, list_elem_of_fmap_2.
  - intros Hn. destruct (Hcomplete (AInt n) Hn) as (b & Hb & Heq); [done|].
    apply list_elem_of_fmap in Hb as (m & -> & Hm).
    apply py_eq_norm in Heq. by injection Heq as ->.
Qed.

(** X9. On a valid input the result is the [timezone] texts of the
    records with the repetitions removed, sorted: what the functions of
    the library for the two steps give. *)
Theorem result_is_sorted_dedupe
  (h : hash_order) (fs : filesystem) (items : list value) :
  loaded json_loads fs (Array items) →
  valid_input (Array items) = true →
  find_unique_timezones json_loads h fs
  = Ok (AStr <$> merge_sort String.le (remove_dups (timezone_texts items))).
Proof.
  intros Hfile Hvalid. rewrite (find_unique_timezones_loaded _ _ _ _ Hfile).
  destruct (timezones_of_valid h items Hvalid) as (ls & -> & Hsorted & Hmem).
  do 2 f_equal. apply strict_sorted_nodup in Hsorted as [Hnodup Hsorted].
  apply (StronglySorted_unique String.le); [done| |].
  - apply StronglySorted_merge_sort; apply _.
  - rewrite merge_sort_Permutation.
    apply NoDup_Permutation; [done|apply NoDup_remove_dups|].
    intros s. by rewrite elem_of_remove_dups, timezone_texts_spec, Hmem.
Qed.

(** X10. On every input whose JSON numbers are integers, valid or not, a
    sequence that is returned is strictly ascending under [<], so without
    two values equal under [==], holds no [None], and is all texts or all
    numbers (integers and booleans). *)
Theorem returned_sequence_invariants
  (h : hash_order) (fs : filesystem) (l : list atom) :
  find_unique_timezones json_loads h fs = Ok l →
  StronglySorted atom_lt l ∧
  (ANone ∉ l) ∧
  (Forall (λ a, is_text a = true) l ∨ Forall (λ a, is_number a = true) l).
Proof.
  unfold find_unique_timezones.
  destruct (open_read fs "stations.json") as [contents|]; cbn [bind]; [|done].
  destruct (json_load json_loads contents) as [stations|]; cbn [bind]; [|done].
  intros Hcall. pose proof (timezones_of_strict _ _ _ Hcall) as Hsorted.
  apply timezones_of_set in Hcall as (s & _ & Hnone & Hperm).
  rewrite <-Hperm in Hnone. split_and!; [done..|].
  destruct Hsorted as [|a l Hl Ha]; [by left|].
  assert (∀ b, b ∈ l → comparable a b = true) as Hkind.
  { rewrite Forall_forall in Ha. intros b Hb. by apply atom_lt_comparable, Ha. }
  destruct (atom_kinds a) as [->|[Hta|Hna]]; [by destruct Hnone; left|..].
  - left. constructor; [done|]. apply Forall_forall. intros b Hb.
    apply Hkind, comparable_kind in Hb as [[_ ?]|[Hn _]]; [done|].
    by destruct (text_not_number a).
  - right. constructor; [done|]. apply Forall_forall. intros b Hb.
    apply Hkind, comparable_kind in Hb as [[Ht _]|[_ ?]]; [|done].
    by destruct (text_not_number a).
Qed.

(** X11. Of values equal under [==] the one that comes first is the one
    returned: where a sequence is returned, the non-null scalar
    [timezone] of a record that no earlier record has an equal of is in
    it as it is. *)
Theorem first_of_equals_is_kept
  (h : hash_order) (fs : filesystem) (before after : list value)
  (fields : gmap string value) (a : atom) (l : list atom) :
  loaded json_loads fs (Array (before ++ Object fields :: after)) →
  fields !! "timezone" = Some (Atom a) → a ≠ ANone →
  (∀ b, timezone_in before (Atom b) → py_eq a b = false) →
  find_unique_timezones json_loads h fs = Ok l →
  a ∈ l.
Proof.
  intros Hfile Hfield Hnone Hfresh.
  rewrite (find_unique_timezones_loaded _ _ _ _ Hfile).
  intros (s & Hloop & _ & _ & _ & ->)%timezones_of_inv.
  rewrite for_each_app in Hloop.
  destruct (for_each collect [] before) as [s0|] eqn:Hbefore; cbn [bind] in Hloop;
    [|done].
  cbn [for_each] in Hloop. rewrite (collect_atom _ _ _ Hfield Hnone) in Hloop.
  cbn [bind] in Hloop.
  destruct (existsb (py_eq a) s0) eqn:Hmem.
  - apply existsb_py_eq, list_elem_of_fmap in Hmem as (c & Heq & Hc).
    destruct (collect_loop_sound _ _ _ _ Hbefore Hc) as [Hnil%elem_of_nil|[_ Hin]];
      [done|].
    apply Hfresh in Hin. apply py_eq_norm in Heq. congruence.
  - apply collect_loop_complete in Hloop as [Hmono _].
    apply Hmono, elem_of_app. right. by left.
Qed.

End Extras.

(** ** The further properties at concrete inputs *)

Lemma output_at_failure_witness :
  run edge_loads ascii_stream reverse_order (stations_file zurich_text)
  = ("Found 2 unique timezones:" +:+ newline +:+ "UTC" +:+ newline,
     Raise UnicodeEncodeError) ∧
  ((find_unique_timezones edge_loads reverse_order (stations_file zurich_text)
    = Raise UnicodeEncodeError ∧
    "Found 2 unique timezones:" +:+ newline +:+ "UTC" +:+ newline = "") ∨
   (UnicodeEncodeError = UnicodeEncodeError ∧
    ∃ before bad after,
      find_unique_timezones edge_loads reverse_order (stations_file zurich_text)
      = Ok (before ++ bad :: after) ∧
      Forall (λ a, encodable ascii_stream (py_str a) = true) before ∧
      encodable ascii_stream (py_str bad) = false ∧
      "Found 2 unique timezones:" +:+ newline +:+ "UTC" +:+ newline
      = unlines (("Found " +:+ pretty (length (before ++ bad :: after))
                  +:+ " unique timezones:") :: (py_str <$> before)))).
Proof.
  assert (run edge_loads ascii_stream reverse_order (stations_file zurich_text)
          = ("Found 2 unique timezones:" +:+ newline +:+ "UTC" +:+ newline,
             Raise UnicodeEncodeError)) as Hrun by reflexivity.
  split; [done|].
  exact (output_at_failure edge_loads ascii_stream reverse_order
           (stations_file zurich_text) _ _ Hrun).
Defined.

Lemma first_bad_record_decides_witness :
  loaded edge_loads (stations_file first_bad_text)
    (Array ([record (text "UTC"); record (Atom (AInt 5))] ++ Atom (AInt 7) :: [])) ∧
  Forall (λ station, passes station = true)
    [record (text "UTC"); record (Atom (AInt 5))] ∧
  is_object (Atom (AInt 7)) = false ∧
  find_unique_timezones edge_loads reverse_order (stations_file first_bad_text)
  = Raise AttributeError ∧
  run edge_loads ascii_stream reverse_order (stations_file first_bad_text)
  = ("", Raise AttributeError).
Proof.
  assert (loaded edge_loads (stations_file first_bad_text)
            (Array ([record (text "UTC"); record (Atom (AInt 5))]
                    ++ Atom (AInt 7) :: []))) as Hfile.
  { exists first_bad_text. split; reflexivity. }
  assert (Forall (λ station, passes station = true)
            [record (text "UTC"); record (Atom (AInt 5))]) as Hpass.
  { repeat constructor. }
  split; [done|]. split; [done|]. split; [done|].
  exact (proj1 (first_bad_record_decides edge_loads ascii_stream reverse_order
                  (stations_file first_bad_text) _ _ _ Hfile Hpass) eq_refl).
Defined.

Lemma top_level_not_an_array_witness :
  loaded edge_loads (stations_file "{}") (Object ∅) ∧
  loaded edge_loads (stations_file "null") (Atom ANone) ∧
  find_unique_timezones edge_loads reverse_order (stations_file "{}") = Ok [] ∧
  run edge_loads ascii_stream reverse_order (stations_file "{}")
  = ("Found 0 unique timezones:" +:+ newline, Ok tt) ∧
  find_unique_timezones edge_loads reverse_order (stations_file "null")
  = Raise TypeError.
Proof.
  assert (loaded edge_loads (stations_file "{}") (Object ∅)) as Hobject.
  { exists "{}". split; reflexivity. }
  assert (loaded edge_loads (stations_file "null") (Atom ANone)) as Hnull.
  { exists "null". split; reflexivity. }
  split; [done|]. split; [done|].
  pose proof (top_level_not_an_array edge_loads ascii_stream reverse_order
                (stations_file "{}") (Object ∅) Hobject) as (_ & _ & _ & Hempty).
  pose proof (top_level_not_an_array edge_loads ascii_stream reverse_order
                (stations_file "null") (Atom ANone) Hnull) as (Hatom & _).
  destruct (Hempty (or_intror eq_refl)) as [Hcall Hrun].
  split; [done|]. split; [done|]. exact (Hatom ANone eq_refl eq_refl).
Defined.

Lemma empty_result_witness :
  loaded sample_loads (stations_file scenario2_text) scenario2 ∧
  Forall (λ station, is_object station = true)
    [Object {["name" := text "A"]}; record (Atom ANone)] ∧
  (find_unique_timezones sample_loads reverse_order (stations_file scenario2_text)
   = Ok [] ↔
     ∀ v, timezone_in [Object {["name" := text "A"]}; record (Atom ANone)] v →
          v = Atom ANone) ∧
  (find_unique_timezones sample_loads reverse_order (stations_file scenario2_text)
   = Ok [] →
   run sample_loads ascii_stream reverse_order (stations_file scenario2_text)
   = ("Found 0 unique timezones:" +:+ newline, Ok tt)).
Proof.
  assert (loaded sample_loads (stations_file scenario2_text) scenario2) as Hfile.
  { exists scenario2_text. split; reflexivity. }
  assert (Forall (λ station, is_object station = true)
            [Object {["name" := text "A"]}; record (Atom ANone)]) as Hobj.
  { repeat constructor. }
  split; [done|]. split; [done|].
  exact (empty_result sample_loads ascii_stream reverse_order
           (stations_file scenario2_text) _ Hfile Hobj).
Defined.

Lemma record_order_irrelevant_witness :
  loaded edge_loads (stations_file scenario1_text) scenario1 ∧
  loaded edge_loads (stations_file scenario1_permuted_text)
    (Array [record (text "America/New_York"); record (text "UTC");
            record (text "UTC")]) ∧
  [record (text "UTC"); record (text "UTC"); record (text "America/New_York")]
  ≡ₚ [record (text "America/New_York"); record (text "UTC"); record (text "UTC")] ∧
  valid_input scenario1 = true ∧
  find_unique_timezones edge_loads insertion_order (stations_file scenario1_text)
  = find_unique_timezones edge_loads reverse_order
      (stations_file scenario1_permuted_text).
Proof.
  assert (loaded edge_loads (stations_file scenario1_text) scenario1) as Hfile1.
  { exists scenario1_text. split; reflexivity. }
  assert (loaded edge_loads (stations_file scenario1_permuted_text)
            (Array [record (text "America/New_York"); record (text "UTC");
                    record (text "UTC")])) as Hfile2.
  { exists scenario1_permuted_text. split; reflexivity. }
  assert ([record (text "UTC"); record (text "UTC");
           record (text "America/New_York")]
          ≡ₚ [record (text "America/New_York"); record (text "UTC");
               record (text "UTC")]) as Hperm.
  { apply (Permutation_app_comm [record (text "UTC"); record (text "UTC")]
             [record (text "America/New_York")]). }
  assert (valid_input scenario1 = true) as Hvalid by reflexivity.
  split; [done|]. split; [done|]. split; [done|]. split; [done|].
  exact (record_order_irrelevant edge_loads insertion_order reverse_order
           _ _ _ _ Hfile1 Hfile2 Hperm Hvalid).
Defined.

Lemma at_most_one_value_per_record_witness :
  loaded edge_loads (stations_file scenario1_text) scenario1 ∧
  find_unique_timezones edge_loads reverse_order (stations_file scenario1_text)
  = Ok [AStr "America/New_York"; AStr "UTC"] ∧
  length [AStr "America/New_York"; AStr "UTC"] ≤ 3.
Proof.
  assert (loaded edge_loads (stations_file scenario1_text) scenario1) as Hfile.
  { exists scenario1_text. split; reflexivity. }
  assert (find_unique_timezones edge_loads reverse_order
            (stations_file scenario1_text)
          = Ok [AStr "America/New_York"; AStr "UTC"]) as Hcall by reflexivity.
  split; [done|]. split; [done|].
  exact (at_most_one_value_per_record edge_loads reverse_order
           (stations_file scenario1_text) _ _ Hfile Hcall).
Defined.


Lemma integers_sorted_by_value_witness :
  loaded edge_loads (stations_file integers_text)
    (Array [record (Atom (AInt 10)); record (Atom (AInt 9))]) ∧
  Forall (λ station, is_object station = true)
    [record (Atom (AInt 10)); record (Atom (AInt 9))] ∧
  (∀ v, timezone_in [record (Atom (AInt 10)); record (Atom (AInt 9))] v →
        v = Atom ANone ∨ ∃ n, v = Atom (AInt n)) ∧
  ∃ zs : list Z,
    find_unique_timezones edge_loads reverse_order (stations_file integers_text)
    = Ok (AInt <$> zs) ∧
    StronglySorted Z.lt zs ∧
    ∀ n, n ∈ zs ↔
         timezone_in [record (Atom (AInt 10)); record (Atom (AInt 9))]
           (Atom (AInt n)).
Proof.
  assert (loaded edge_loads (stations_file integers_text)
            (Array [record (Atom (AInt 10)); record (Atom (AInt 9))])) as Hfile.
  { exists integers_text. split; reflexivity. }
  assert (Forall (λ station, is_object station = true)
            [record (Atom (AInt 10)); record (Atom (AInt 9))]) as Hobj.
  { repeat constructor. }
  assert (∀ v, timezone_in [record (Atom (AInt 10)); record (Atom (AInt 9))] v →
               v = Atom ANone ∨ ∃ n, v = Atom (AInt n)) as Hint.
  { intros v (fields & Hin & Hv). unfold record in Hin.
    apply elem_of_cons in Hin as [Hin|Hin%list_elem_of_singleton];
      injection Hin as ->; rewrite lookup_singleton_eq in Hv;
      injection Hv as <-; right; by eexists. }
  split; [done|]. split; [done|]. split; [done|].
  exact (integers_sorted_by_value edge_loads reverse_order
           (stations_file integers_text) _ Hfile Hobj Hint).
Defined.

Lemma result_is_sorted_dedupe_witness :
  loaded edge_loads (stations_file scenario1_text) scenario1 ∧
  valid_input scenario1 = true ∧
  find_unique_timezones edge_loads reverse_order (stations_file scenario1_text)
  = Ok (AStr <$> merge_sort String.le
          (remove_dups
             (timezone_texts
                [record (text "UTC"); record (text "UTC");
                 record (text "America/New_York")]))).
Proof.
  assert (loaded edge_loads (stations_file scenario1_text) scenario1) as Hfile.
  { exists scenario1_text. split; reflexivity. }
  assert (valid_input scenario1 = true) as Hvalid by reflexivity.
  split; [done|]. split; [done|].
  exact (result_is_sorted_dedupe edge_loads reverse_order
           (stations_file scenario1_text) _ Hfile Hvalid).
Defined.

Lemma returned_sequence_invariants_witness :
  find_unique_timezones edge_loads reverse_order (stations_file scenario1_text)
  = Ok [AStr "America/New_York"; AStr "UTC"] ∧
  StronglySorted atom_lt [AStr "America/New_York"; AStr "UTC"] ∧
  (ANone ∉ [AStr "America/New_York"; AStr "UTC"]) ∧
  (Forall (λ a, is_text a = true) [AStr "America/New_York"; AStr "UTC"] ∨
   Forall (λ a, is_number a = true) [AStr "America/New_York"; AStr "UTC"]).
Proof.
  assert (find_unique_timezones edge_loads reverse_order
            (stations_file scenario1_text)
          = Ok [AStr "America/New_York"; AStr "UTC"]) as Hcall by reflexivity.
  split; [done|].
  exact (returned_sequence_invariants edge_loads reverse_order
           (stations_file scenario1_text) _ Hcall).
Defined.

Lemma first_of_equals_is_kept_witness :
  loaded edge_loads (stations_file integers_text)
    (Array ([record (Atom (AInt 10))] ++ Object {["timezone" := Atom (AInt 9)]} :: [])) ∧
  ({["timezone" := Atom (AInt 9)]} : gmap string value) !! "timezone"
  = Some (Atom (AInt 9)) ∧
  AInt 9 ≠ ANone ∧
  (∀ b, timezone_in [record (Atom (AInt 10))] (Atom b) → py_eq (AInt 9) b = false) ∧
  find_unique_timezones edge_loads reverse_order (stations_file integers_text)
  = Ok [AInt 9; AInt 10] ∧
  AInt 9 ∈ [AInt 9; AInt 10].
Proof.
  assert (loaded edge_loads (stations_file integers_text)
            (Array ([record (Atom (AInt 10))]
                    ++ Object {["timezone" := Atom (AInt 9)]} :: []))) as Hfile.
  { exists integers_text. split; reflexivity. }
  assert (({["timezone" := Atom (AInt 9)]} : gmap string value) !! "timezone"
          = Some (Atom (AInt 9))) as Hfield by reflexivity.
  assert (AInt 9 ≠ ANone) as Hnone by discriminate.
  assert (∀ b, timezone_in [record (Atom (AInt 10))] (Atom b) →
               py_eq (AInt 9) b = false) as Hfresh.
  { intros b (fields & Hin%list_elem_of_singleton & Hb). unfold record in Hin.
    injection Hin as ->. rewrite lookup_singleton_eq in Hb. by injection Hb as <-. }
  assert (find_unique_timezones edge_loads reverse_order
            (stations_file integers_text) = Ok [AInt 9; AInt 10]) as Hcall
    by reflexivity.
  split; [done|]. split; [done|]. split; [done|]. split; [done|]. split; [done|].
  exact (first_of_equals_is_kept edge_loads reverse_order
           (stations_file integers_text) _ _ _ _ _ Hfile Hfield Hnone Hfresh Hcall).
Defined.

(** C7 as it is stated fails: with [NaN] and a number among the
    timezones, two runs on the same file that iterate the set in the two
    orders return different sequences. *)
Lemma nan_breaks_determinism :
  WithNaN.find_unique_timezones WithNaN.sample_loads WithNaN.insertion_order
    (stations_file WithNaN.nan_text)
  = Some (Ok [WithNaN.Nan; WithNaN.Plain (AInt 1)]) ∧
  WithNaN.find_unique_timezones WithNaN.sample_loads WithNaN.reverse_order
    (stations_file WithNaN.nan_text)
  = Some (Ok [WithNaN.Plain (AInt 1); WithNaN.Nan]) ∧
  WithNaN.find_unique_timezones WithNaN.sample_loads WithNaN.insertion_order
    (stations_file WithNaN.nan_text)
  ≠ WithNaN.find_unique_timezones WithNaN.sample_loads WithNaN.reverse_order
      (stations_file WithNaN.nan_text).
Proof.
  split_and!.
  - reflexivity.
  - reflexivity.
  - discriminate.
Qed.
